(** * The file panel's filtered event feed and the forward dialog's entries

    A shallow embedding of [src/components/structures/FilePanel.js] and of
    the [Entry] component of [src/components/views/dialogs/ForwardDialog.tsx].

    The file panel talks to the session ([MatrixClientPeg]), to the local
    search index ([EventIndexPeg]) and to SDK objects (rooms, timeline sets,
    timeline windows).  Every such interaction is an explicit _call_ of a small
    free monad; the answers are given by a handler, so that a statement about
    the panel holds whatever the collaborators answer.  The component's own
    mutable parts ([this.noRoom], [this.state], [this.props]) are a record that
    the interpreter threads through. *)

From stdpp Require Import gmap strings list pretty.

Set Default Proof Using "Type".
Set Warnings "-register-all".
Open Scope string_scope.
Open Scope list_scope.

(** ** Data *)

(** A filter definition is a JSON literal. *)
Inductive Json : Type :=
| JBool (b : bool)
| JString (s : string)
| JArray (items : list Json)
| JObject (fields : list (string * Json)).

(** A thrown JavaScript value. *)
Record Error : Type := mkError { message : string }.

(** A room object of the session's store. *)
Record Room : Type := mkRoom { room_roomId : string }.

(** [Matrix.Filter]: [new Matrix.Filter(userId)] has no identifier and an
    empty definition. *)
Record Filter : Type := mkFilter {
  filter_userId : string;
  filter_filterId : option string;
  filter_definition : Json;
}.

Definition new_Filter (userId : string) : Filter :=
  {| filter_userId := userId; filter_filterId := None; filter_definition := JObject [] |}.

Definition setDefinition (f : Filter) (d : Json) : Filter :=
  {| filter_userId := filter_userId f; filter_filterId := filter_filterId f;
     filter_definition := d |}.

Definition set_filterId (f : Filter) (id : string) : Filter :=
  {| filter_userId := filter_userId f; filter_filterId := Some id;
     filter_definition := filter_definition f |}.

(** SDK objects that the panel only passes around are handles. *)
Record TimelineSet : Type := mkTimelineSet { ts_handle : nat }.
Record Timeline : Type := mkTimeline { tl_handle : nat }.
Record TimelineWindow : Type := mkTimelineWindow { win_handle : nat }.
Record EventIndex : Type := mkEventIndex { index_handle : nat }.
Record ResizeNotifier : Type := mkResizeNotifier { rn_handle : nat }.

(** [EventTimeline.BACKWARDS] and [EventTimeline.FORWARDS]. *)
Inductive Direction : Type := Backwards | Forwards.

(** The component instance: [propTypes], [getInitialState] and the instance
    field [noRoom], which is [undefined] until [updateTimelineSet] assigns it. *)
Record Props : Type := mkProps {
  roomId : string;
  resizeNotifier : option ResizeNotifier;
}.

Record State : Type := mkState { timelineSet : option TimelineSet }.

Record Component : Type := mkComponent {
  props : Props;
  state : State;
  noRoom : option bool;
}.

Definition getInitialState : State := {| timelineSet := None |}.

Definition mount (p : Props) : Component :=
  {| props := p; state := getInitialState; noRoom := None |}.

(** JavaScript truthiness of the two kinds of value the panel tests. *)
Definition truthy_obj {A : Type} (o : option A) : bool :=
  match o with Some _ => true | None => false end.

Definition truthy_flag (o : option bool) : bool :=
  match o with Some b => b | None => false end.

(** ** Calls *)

(** Reads and writes of the component instance itself. *)
Inductive ThisCall : Type :=
| ReadThis
| SetNoRoom (b : bool)
| SetState (ts : TimelineSet).

(** Calls on the collaborators, in the source's terms: [MatrixClientPeg.get()]
    and the client's methods, [EventIndexPeg.get()] and the index's methods,
    methods of SDK objects, and the console. *)
Inductive ExtCall : Type :=
| ClientUserId
| ClientIsGuest
| ClientGetRoom (roomId : string)
| ClientIsRoomEncrypted (roomId : string)
| ClientGetOrCreateFilter (name : string) (filter : Filter)
| RoomGetOrCreateFilteredTimelineSet (room : Room) (filter : Filter)
| TimelineSetGetLiveTimeline (ts : TimelineSet)
| EventIndexPegGet
| IndexPopulateFileTimeline (index : EventIndex) (ts : TimelineSet)
    (timeline : Timeline) (room : Room) (limit : Z)
| IndexPaginateTimelineWindow (index : EventIndex) (room : option Room)
    (window : TimelineWindow) (direction : Direction) (limit : Z)
| WindowPaginate (window : TimelineWindow) (direction : Direction) (limit : Z)
| ConsoleError (msg : string) (error : option Error).

Inductive Call : Type :=
| OnThis (c : ThisCall)
| External (c : ExtCall).

Coercion OnThis : ThisCall >-> Call.
Coercion External : ExtCall >-> Call.

Definition ThisResp (c : ThisCall) : Type :=
  match c with
  | ReadThis => Component
  | SetNoRoom _ | SetState _ => unit
  end.

(** A promise is modelled by its settlement: [inl e] is a rejection (or a
    throw), [inr v] a resolution. *)
Definition ExtResp (c : ExtCall) : Type :=
  match c with
  | ClientUserId => string
  | ClientIsGuest | ClientIsRoomEncrypted _ => bool
  | ClientGetRoom _ => option Room
  | ClientGetOrCreateFilter _ _ => Error + string
  | RoomGetOrCreateFilteredTimelineSet _ _ => Error + TimelineSet
  | TimelineSetGetLiveTimeline _ => Timeline
  | EventIndexPegGet => option EventIndex
  | IndexPopulateFileTimeline _ _ _ _ _ => Error + unit
  | IndexPaginateTimelineWindow _ _ _ _ _ | WindowPaginate _ _ _ => Error + bool
  | ConsoleError _ _ => unit
  end.

Definition Resp (c : Call) : Type :=
  match c with
  | OnThis c => ThisResp c
  | External c => ExtResp c
  end.

(** ** Programs *)

Inductive Prog (A : Type) : Type :=
| Ret (a : A)
| Throw (e : Error)
| Vis (c : Call) (k : Resp c → Prog A).

Arguments Ret {A} a.
Arguments Throw {A} e.
Arguments Vis {A} c k.

Fixpoint bind {A B : Type} (p : Prog A) (f : A → Prog B) : Prog B :=
  match p with
  | Ret a => f a
  | Throw e => Throw e
  | Vis c k => Vis c (fun r => bind (k r) f)
  end.

(** [try { p } catch (e) { handler e }] *)
Fixpoint try_catch {A : Type} (p : Prog A) (handler : Error → Prog A) : Prog A :=
  match p with
  | Ret a => Ret a
  | Throw e => handler e
  | Vis c k => Vis c (fun r => try_catch (k r) handler)
  end.

Definition call (c : Call) : Prog (Resp c) := Vis c Ret.

(** A settled promise, or a call that may throw, continues or throws. *)
Definition settle {A : Type} (r : Error + A) : Prog A :=
  match r with inl e => Throw e | inr a => Ret a end.

(** stdpp's monad notations: [x ← p; q] and [p;; q]. *)
#[global] Instance Prog_ret : MRet Prog := @Ret.
#[global] Instance Prog_bind : MBind Prog := fun A B f p => bind p f.

(** ** Running a program *)

(** The collaborators: each external call is answered from, and may change,
    a world [W]. *)
Definition Handler (W : Type) : Type := ∀ c : ExtCall, W → W * ExtResp c.

(** [this.setState({ timelineSet })] and the assignment to [this.noRoom]. *)
Definition setState (this : Component) (ts : TimelineSet) : Component :=
  {| props := props this; state := {| timelineSet := Some ts |}; noRoom := noRoom this |}.

Definition set_noRoom (this : Component) (b : bool) : Component :=
  {| props := props this; state := state this; noRoom := Some b |}.

Definition on_this (c : ThisCall) (this : Component) : Component * ThisResp c :=
  match c as c0 return Component * ThisResp c0 with
  | ReadThis => (this, this)
  | SetNoRoom b => (set_noRoom this b, tt)
  | SetState ts => (setState this ts, tt)
  end.

Definition handle {W : Type} (h : Handler W) (c : Call) (s : Component * W)
    : (Component * W) * Resp c :=
  match c as c0 return (Component * W) * Resp c0 with
  | OnThis c => let (this', r) := on_this c s.1 in ((this', s.2), r)
  | External c => let (w', r) := h c s.2 in ((s.1, w'), r)
  end.

(** One call together with the answer it received. *)
Record Event : Type := Ev { ev_call : Call; ev_resp : Resp ev_call }.

Inductive Outcome (A : Type) : Type :=
| Returned (a : A)
| Thrown (e : Error).

Arguments Returned {A} a.
Arguments Thrown {A} e.

Record Run (W A : Type) : Type := mkRun {
  final : Component * W;
  trace : list Event;
  outcome : Outcome A;
}.

Arguments mkRun {W A} final trace outcome.
Arguments final {W A} r.
Arguments trace {W A} r.
Arguments outcome {W A} r.

Fixpoint run {W A : Type} (h : Handler W) (p : Prog A) (s : Component * W) : Run W A :=
  match p with
  | Ret a => mkRun s [] (Returned a)
  | Throw e => mkRun s [] (Thrown e)
  | Vis c k =>
      let (s', r) := handle h c s in
      let rest := run h (k r) s' in
      mkRun (final rest) (Ev c r :: trace rest) (outcome rest)
  end.

(** What a trace says. *)
Definition ext_call_of (ev : Event) : option ExtCall :=
  match ev_call ev with External c => Some c | OnThis _ => None end.

(** The external calls of a trace, in order. *)
Definition ext_calls (tr : list Event) : list ExtCall := omap ext_call_of tr.

(** Calls that reach the homeserver or the local index, or that go through
    SDK objects built from them (everything except lookups in the session's
    own stores and the console). *)
Definition contacts_server_or_index (c : ExtCall) : bool :=
  match c with
  | ClientGetOrCreateFilter _ _
  | RoomGetOrCreateFilteredTimelineSet _ _
  | TimelineSetGetLiveTimeline _
  | IndexPopulateFileTimeline _ _ _ _ _
  | IndexPaginateTimelineWindow _ _ _ _ _
  | WindowPaginate _ _ _ => true
  | _ => false
  end.

Definition is_pagination (c : ExtCall) : bool :=
  match c with
  | IndexPaginateTimelineWindow _ _ _ _ _ | WindowPaginate _ _ _ => true
  | _ => false
  end.

Definition is_filter_request (c : ExtCall) : bool :=
  match c with ClientGetOrCreateFilter _ _ => true | _ => false end.

(** An event whose call was rejected or threw. *)
Definition rejected (ev : Event) : bool :=
  match ev with
  | Ev (External (ClientGetOrCreateFilter _ _)) (inl _)
  | Ev (External (RoomGetOrCreateFilteredTimelineSet _ _)) (inl _)
  | Ev (External (IndexPopulateFileTimeline _ _ _ _ _)) (inl _)
  | Ev (External (IndexPaginateTimelineWindow _ _ _ _ _)) (inl _)
  | Ev (External (WindowPaginate _ _ _)) (inl _) => true
  | _ => false
  end.

(** What [onPaginationRequest] hands back for a settled promise. *)
Definition settled_outcome {A : Type} (settled : Error + A) : Outcome A :=
  match settled with inl e => Thrown e | inr a => Returned a end.

(** The one call a pagination request is passed on to. *)
Definition delegate (encrypted : bool) (eventIndex : option EventIndex)
    (room : option Room) (window : TimelineWindow) (direction : Direction) (limit : Z)
    : ExtCall :=
  match encrypted, eventIndex with
  | true, Some index => IndexPaginateTimelineWindow index room window direction limit
  | _, _ => WindowPaginate window direction limit
  end.

(** The settlements of the pagination calls of a trace, in order. *)
Definition settlement_of (ev : Event) : option (Error + bool) :=
  match ev with
  | Ev (External (IndexPaginateTimelineWindow _ _ _ _ _)) settled => Some settled
  | Ev (External (WindowPaginate _ _ _)) settled => Some settled
  | _ => None
  end.

Definition settlements (tr : list Event) : list (Error + bool) := omap settlement_of tr.

(** The timeline sets handed to [setState], the timeline sets the room
    answered with, the logged errors and the index populations of a trace. *)
Definition exposed (tr : list Event) : list TimelineSet :=
  omap (fun ev => match ev_call ev with OnThis (SetState ts) => Some ts | _ => None end) tr.

Definition made_of (ev : Event) : option (Error + TimelineSet) :=
  match ev with
  | Ev (External (RoomGetOrCreateFilteredTimelineSet _ _)) made => Some made
  | _ => None
  end.

Definition made (tr : list Event) : list (Error + TimelineSet) := omap made_of tr.

Definition console_errors (tr : list Event) : list (string * option Error) :=
  omap (fun ev => match ev_call ev with
                  | External (ConsoleError msg error) => Some (msg, error)
                  | _ => None
                  end) tr.

Definition populations (tr : list Event)
    : list (EventIndex * TimelineSet * Timeline * Room * Z) :=
  omap (fun ev => match ev_call ev with
                  | External (IndexPopulateFileTimeline index ts timeline room limit) =>
                      Some (index, ts, timeline, room, limit)
                  | _ => None
                  end) tr.

(** ** Activations in flight together *)

(** Execution is single-threaded and cooperative: an activation runs until it
    awaits.  The pool below lets a schedule pick, call by call, which
    activation goes next; this allows every interleaving at an [await] (and
    more).  All activations work on the same component and world. *)
Record Pool (W A : Type) : Type := mkPool {
  activations : list (Prog A);
  shared : Component * W;
  log : list Event;
}.

Arguments mkPool {W A} activations shared log.
Arguments activations {W A} p.
Arguments shared {W A} p.
Arguments log {W A} p.

Definition start {W A : Type} (ps : list (Prog A)) (s : Component * W) : Pool W A :=
  {| activations := ps; shared := s; log := [] |}.

Definition advance {W A : Type} (h : Handler W) (pool : Pool W A) (i : nat) : Pool W A :=
  match activations pool !! i with
  | Some (Vis c k) =>
      let (s', r) := handle h c (shared pool) in
      {| activations := <[i := k r]> (activations pool);
         shared := s';
         log := log pool ++ [Ev c r] |}
  | _ => pool
  end.

Definition interleave {W A : Type} (h : Handler W) (schedule : list nat)
    (pool : Pool W A) : Pool W A :=
  foldl (advance h) pool schedule.

(** The filter requests of a trace, with their settlements. *)
Definition filter_request_of (ev : Event) : option (string * Filter * (Error + string)) :=
  match ev with
  | Ev (External (ClientGetOrCreateFilter name filter)) settled => Some (name, filter, settled)
  | _ => None
  end.

Definition filter_requests (tr : list Event) : list (string * Filter * (Error + string)) :=
  omap filter_request_of tr.

(** ** Rendered output *)

Inductive PropValue : Type :=
| PString (s : string)
| PBool (b : bool)
| PTimelineSet (ts : TimelineSet)
| PMethod (name : string)
| PResizeNotifier (rn : option ResizeNotifier)
| PTranslated (key : string).

Inductive VNode : Type :=
| Element (tag : string) (attrs : list (string * string)) (children : list VNode)
| Translated (key : string)
| TranslatedWithTags (key : string) (tags : list (string * VNode))
| Substitution
| ComponentNode (name : string) (nodeProps : list (string * PropValue)).

(** Whether a tree carries an empty-state message: a block of class
    [mx_RoomView_empty], or a component that is given an [empty] text. *)
Fixpoint shows_empty_state (v : VNode) : bool :=
  match v with
  | Element _ attrs children =>
      existsb (fun a => String.eqb a.1 "className" && String.eqb a.2 "mx_RoomView_empty") attrs
      || existsb shows_empty_state children
  | ComponentNode _ nodeProps => existsb (fun p => String.eqb p.1 "empty") nodeProps
  | _ => false
  end.

Module FilePanel.

(** The definition handed to [filter.setDefinition]. *)
Definition fileFilterDefinition : Json :=
  JObject [("room",
    JObject [("timeline",
      JObject [("contains_url", JBool true);
               ("types", JArray [JString "m.room.message"])])])].

Definition fetchFileEventsServer (room : Room) : Prog TimelineSet :=
  userId ← call ClientUserId;
  let filter := new_Filter userId in
  let filter := setDefinition filter fileFilterDefinition in
  userId' ← call ClientUserId;
  settled ← call (ClientGetOrCreateFilter ("FILTER_FILES_" +:+ userId') filter);
  filterId ← settle settled;
  let filter := set_filterId filter filterId in
  made ← call (RoomGetOrCreateFilteredTimelineSet room filter);
  timelineSet ← settle made;
  Ret timelineSet.

Definition onPaginationRequest (timelineWindow : TimelineWindow)
    (direction : Direction) (limit : Z) : Prog bool :=
  eventIndex ← call EventIndexPegGet;
  this ← call ReadThis;
  let roomId := roomId (props this) in
  room ← call (ClientGetRoom roomId);
  encrypted ← call (ClientIsRoomEncrypted roomId);
  match encrypted, eventIndex with
  | true, Some eventIndex =>
      settled ← call (IndexPaginateTimelineWindow eventIndex room timelineWindow direction limit);
      settle settled
  | _, _ =>
      settled ← call (WindowPaginate timelineWindow direction limit);
      settle settled
  end.

Definition updateTimelineSet (roomId : string) : Prog unit :=
  room ← call (ClientGetRoom roomId);
  eventIndex ← call EventIndexPegGet;
  call (SetNoRoom (negb (truthy_obj room)));;
  match room with
  | Some room =>
      try_catch
        (timelineSet ← fetchFileEventsServer room;
         encrypted ← call (ClientIsRoomEncrypted roomId);
         match encrypted, eventIndex with
         | true, Some eventIndex =>
             timeline ← call (TimelineSetGetLiveTimeline timelineSet);
             settled ← call (IndexPopulateFileTimeline eventIndex timelineSet timeline room 1);
             settle settled
         | _, _ => Ret tt
         end;;
         call (SetState timelineSet))
        (fun error =>
           call (ConsoleError "Failed to get or create file panel filter" (Some error)))
  | None =>
      call (ConsoleError "Failed to add filtered timelineSet for FilePanel as no room!" None)
  end.

Definition componentDidMount : Prog unit :=
  this ← call ReadThis;
  updateTimelineSet (roomId (props this)).

(** The four trees [render] can return. *)
Definition guestView : VNode :=
  Element "div" [("className", "mx_FilePanel mx_RoomView_messageListWrapper")]
    [Element "div" [("className", "mx_RoomView_empty")]
       [TranslatedWithTags "You must <a>register</a> to use this functionality"
          [("a", Element "a" [("href", "#/register"); ("key", "sub")] [Substitution])]]].

Definition notJoinedView : VNode :=
  Element "div" [("className", "mx_FilePanel mx_RoomView_messageListWrapper")]
    [Element "div" [("className", "mx_RoomView_empty")]
       [Translated "You must join the room to see its files"]].

Definition feedView (p : Props) (ts : TimelineSet) : VNode :=
  Element "div" [("className", "mx_FilePanel"); ("role", "tabpanel")]
    [ComponentNode "structures.TimelinePanel"
       [("key", PString ("filepanel_" +:+ roomId p));
        ("manageReadReceipts", PBool false);
        ("manageReadMarkers", PBool false);
        ("timelineSet", PTimelineSet ts);
        ("showUrlPreview", PBool false);
        ("onPaginationRequest", PMethod "onPaginationRequest");
        ("tileShape", PString "file_grid");
        ("resizeNotifier", PResizeNotifier (resizeNotifier p));
        ("empty", PTranslated "There are no visible files in this room")]].

Definition loaderView : VNode :=
  Element "div" [("className", "mx_FilePanel"); ("role", "tabpanel")]
    [ComponentNode "elements.Spinner" []].

Definition render : Prog VNode :=
  guest ← call ClientIsGuest;
  if (guest : bool) then Ret guestView
  else
    this ← call ReadThis;
    if truthy_flag (noRoom this) then Ret notJoinedView
    else
      this ← call ReadThis;
      match timelineSet (state this) with
      | Some ts =>
          this ← call ReadThis;
          Ret (feedView (props this) ts)
      | None => Ret loaderView
      end.

End FilePanel.

(** ** The forward dialog's per-room entry *)

Module ForwardDialog.

Inductive SendState : Type := CanSend | Sending | Sent | Failed.

(** The two [onClick] closures [Entry] hands to its button. *)
Inductive OnClick : Type :=
| ForwardOnClick   (* async () => { setSendState(Sending); try { await send(); ... } ... } *)
| NoopOnClick.     (* () => {} *)

Record Button : Type := mkButton {
  component : string;
  kind : string;
  className : string;
  label : string;
  onClick : OnClick;
  disabled : bool;
  title : option string;
}.

Definition SendState_eqb (a b : SendState) : bool :=
  match a, b with
  | CanSend, CanSend | Sending, Sending | Sent, Sent | Failed, Failed => true
  | _, _ => false
  end.

(** The button of [Entry]; [maySendMessage] is [room.maySendMessage()] at the
    time of rendering and the strings are translation keys. *)
Definition Entry (maySendMessage : bool) (sendState : SendState) : Button :=
  if maySendMessage then
    let (label, className) :=
      if SendState_eqb sendState CanSend then ("Send", "mx_ForwardList_canSend")
      else if SendState_eqb sendState Sending then ("Sending…", "mx_ForwardList_sending")
      else if SendState_eqb sendState Sent then ("Sent", "mx_ForwardList_sent")
      else ("Failed to send", "mx_ForwardList_sendFailed") in
    {| component := "AccessibleButton";
       kind := if SendState_eqb sendState Failed then "danger_outline" else "primary_outline";
       className := className;
       label := label;
       onClick := ForwardOnClick;
       disabled := negb (SendState_eqb sendState CanSend);
       title := None |}
  else
    {| component := "AccessibleTooltipButton";
       kind := "primary_outline";
       className := "mx_ForwardList_canSend";
       label := "Send";
       onClick := NoopOnClick;
       disabled := true;
       title := Some "You do not have permission to post to this room" |}.

(** One mounted entry: its hook state, the [send()] promises its click
    handlers are awaiting, and how often [send] has been invoked. *)
Record Instance : Type := mkInstance {
  sendState : SendState;
  awaiting : nat;
  sends : nat;
}.

(** [useState<SendState>(SendState.CanSend)] *)
Definition mounted : Instance := {| sendState := CanSend; awaiting := 0; sends := 0 |}.

(** What can happen to a mounted entry: the user clicks the button as last
    rendered, or a [send()] promise settles. *)
Inductive Input : Type :=
| Click (maySendMessage : bool)
| SendSettled (ok : bool).

(** The synchronous part of a closure, up to its first [await]. *)
Definition invoke (h : OnClick) (i : Instance) : Instance :=
  match h with
  | ForwardOnClick =>
      {| sendState := Sending; awaiting := S (awaiting i); sends := S (sends i) |}
  | NoopOnClick => i
  end.

(** A disabled button does not invoke its handler. *)
Definition step (i : Instance) (x : Input) : Instance :=
  match x with
  | Click maySendMessage =>
      let button := Entry maySendMessage (sendState i) in
      if disabled button then i else invoke (onClick button) i
  | SendSettled ok =>
      match awaiting i with
      | 0 => i
      | S n =>
          {| sendState := if ok then Sent else Failed; awaiting := n; sends := sends i |}
      end
  end.

Definition steps (i : Instance) (xs : list Input) : Instance := foldl step i xs.

End ForwardDialog.

(** ** The collaborators as the specification describes them *)

Module SpecWorld.

(** Modelled from the spec: a timeline event, with what the file filter
    ("messages with attached media") looks at.  The SDK's event class is not
    part of the panel. *)
Record MEvent : Type := mkMEvent {
  event_id : string;
  event_type : string;
  has_url : bool;
}.

Definition json_field (k : string) (j : Json) : option Json :=
  match j with
  | JObject fields => snd <$> find (fun kv => String.eqb kv.1 k) fields
  | _ => None
  end.

Definition json_is_string (s : string) (j : Json) : bool :=
  match j with JString s' => String.eqb s' s | _ => false end.

(** Modelled from the spec: a filter is a predicate on events given by event
    types and content shape; the server applies it ([room.timeline.types] and
    [room.timeline.contains_url] of the definition). *)
Definition filter_matches (definition : Json) (e : MEvent) : bool :=
  let timeline := json_field "room" definition ≫= json_field "timeline" in
  match timeline ≫= json_field "types" with
  | Some (JArray types) => existsb (json_is_string (event_type e)) types
  | _ => true
  end &&
  match timeline ≫= json_field "contains_url" with
  | Some (JBool b) => Bool.eqb b (has_url e)
  | _ => true
  end.

(** Modelled from the spec: one batch of at most [n] matching events from a
    history, and the history beyond the new cursor. *)
Fixpoint fetch_page (definition : Json) (n : nat) (history : list MEvent)
    : list MEvent * list MEvent :=
  match history with
  | [] => ([], [])
  | e :: history' =>
      match n with
      | 0 => ([], history)
      | S n' =>
          if filter_matches definition e then
            let (page, rest) := fetch_page definition n' history' in (e :: page, rest)
          else fetch_page definition n history'
      end
  end.

(** Modelled from the spec: a filtered timeline set with its pagination
    window.  [older] and [newer] are the server's history on either side of
    the cursor and [indexed] the locally decrypted history of the search
    index, nearest first; [paged] holds what pagination has fetched and [live]
    the live timeline, both oldest first. *)
Record Feed : Type := mkFeed {
  feed_filter : Json;
  older : list MEvent;
  indexed : list MEvent;
  newer : list MEvent;
  paged : list MEvent;
  live : list MEvent;
}.

(** Modelled from the spec: the events of a feed, in timeline order. *)
Definition events (f : Feed) : list MEvent := paged f ++ live f.

(** Whether a batch appends anything. *)
Definition appended (page : list MEvent) : bool :=
  match page with [] => false | _ :: _ => true end.

(** Modelled from the spec: pagination on the timeline window fetches the next
    batch in the given direction, advances the cursor and tells whether any
    event was appended. *)
Definition window_paginate (d : Direction) (limit : Z) (f : Feed) : Feed * bool :=
  match d with
  | Backwards =>
      let (page, rest) := fetch_page (feed_filter f) (Z.to_nat limit) (older f) in
      ({| feed_filter := feed_filter f; older := rest; indexed := indexed f;
          newer := newer f; paged := reverse page ++ paged f; live := live f |},
       appended page)
  | Forwards =>
      let (page, rest) := fetch_page (feed_filter f) (Z.to_nat limit) (newer f) in
      ({| feed_filter := feed_filter f; older := older f; indexed := indexed f;
          newer := rest; paged := paged f ++ page; live := live f |},
       appended page)
  end.

(** Modelled from the spec: pagination through the index merges locally
    indexed decrypted events with a gap-filling network fetch. *)
Definition index_paginate (d : Direction) (limit : Z) (f : Feed) : Feed * bool :=
  match d with
  | Backwards =>
      let (local, rest_indexed) := fetch_page (feed_filter f) (Z.to_nat limit) (indexed f) in
      let (gap, rest_older) :=
        fetch_page (feed_filter f) (Z.to_nat limit - length local) (older f) in
      ({| feed_filter := feed_filter f; older := rest_older; indexed := rest_indexed;
          newer := newer f; paged := reverse (local ++ gap) ++ paged f; live := live f |},
       appended (local ++ gap))
  | Forwards => window_paginate Forwards limit f
  end.

(** Modelled from the spec: the index pre-populates one page of the live
    timeline from locally decrypted history. *)
Definition populate (pageSize : Z) (f : Feed) : Feed :=
  let (page, rest) := fetch_page (feed_filter f) (Z.to_nat pageSize) (indexed f) in
  {| feed_filter := feed_filter f; older := older f; indexed := rest;
     newer := newer f; paged := paged f; live := reverse page ++ live f |}.

(** Modelled from the spec: the live timeline only grows by appending newly
    received matching events. *)
Definition deliver (e : MEvent) (f : Feed) : Feed :=
  if filter_matches (feed_filter f) e then
    {| feed_filter := feed_filter f; older := older f; indexed := indexed f;
       newer := newer f; paged := paged f; live := live f ++ [e] |}
  else f.

(** Modelled from the spec: the session and room store, with what does not
    change while the panel is open: the user, the joined rooms and their
    encryption flags, the optional search index, and the history held by the
    server and by the index. *)
Record Session : Type := mkSession {
  userId : string;
  guest : bool;
  rooms : gmap string Room;
  encrypted : gset string;
  index : option EventIndex;
  room_history : gmap string (list MEvent);
  room_indexed : gmap string (list MEvent);
}.

(** Modelled from the spec: the homeserver's filters and the feeds.
    [filter_ids] caches the server-assigned identifier per filter name,
    [server_filters] lists the filters created on the server, [faults] tells
    for each filter creation to come whether the network fails, and a feed is
    shared by a timeline set, its live timeline and its window, which carry
    the same handle. *)
Record World : Type := mkWorld {
  faults : list bool;
  filter_ids : gmap string string;
  server_filters : list (string * Filter);
  timeline_sets : gmap (string * string) TimelineSet;
  feeds : gmap nat Feed;
  next_handle : nat;
  console : list (string * option Error);
}.

Definition with_feeds (w : World) (fs : gmap nat Feed) : World :=
  {| faults := faults w; filter_ids := filter_ids w;
     server_filters := server_filters w; timeline_sets := timeline_sets w;
     feeds := fs; next_handle := next_handle w; console := console w |}.

Definition with_console (w : World) (c : list (string * option Error)) : World :=
  {| faults := faults w; filter_ids := filter_ids w;
     server_filters := server_filters w; timeline_sets := timeline_sets w;
     feeds := feeds w; next_handle := next_handle w; console := c |}.

Definition with_faults (w : World) (fl : list bool) : World :=
  {| faults := fl; filter_ids := filter_ids w;
     server_filters := server_filters w; timeline_sets := timeline_sets w;
     feeds := feeds w; next_handle := next_handle w; console := console w |}.

(** Modelled from the spec: [getOrCreateFilter(name, spec) -> filterId];
    a filter is created once per name and cached by it, so creation is
    idempotent; creating needs the network. *)
Definition getOrCreateFilter (name : string) (filter : Filter) (w : World)
    : World * (Error + string) :=
  match filter_ids w !! name with
  | Some id => (w, inr id)
  | None =>
      match faults w with
      | true :: later => (with_faults w later, inl (mkError "network failure"))
      | _ =>
          let id := pretty (length (server_filters w)) in
          ({| faults := tail (faults w);
              filter_ids := <[name := id]> (filter_ids w);
              server_filters := server_filters w ++ [(id, filter)];
              timeline_sets := timeline_sets w; feeds := feeds w;
              next_handle := next_handle w; console := console w |},
           inr id)
      end
  end.

(** Modelled from the spec: [getOrCreateFilteredTimelineSet(filter)] of the
    room's event store; one timeline set per room and filter. *)
Definition getOrCreateFilteredTimelineSet (s : Session) (room : Room) (filter : Filter)
    (w : World) : World * (Error + TimelineSet) :=
  match filter_filterId filter with
  | None => (w, inl (mkError "filter has no identifier"))
  | Some id =>
      let key := (room_roomId room, id) in
      match timeline_sets w !! key with
      | Some ts => (w, inr ts)
      | None =>
          let ts := mkTimelineSet (next_handle w) in
          let feed :=
            {| feed_filter := filter_definition filter;
               older := default [] (room_history s !! room_roomId room);
               indexed := default [] (room_indexed s !! room_roomId room);
               newer := []; paged := []; live := [] |} in
          ({| faults := faults w; filter_ids := filter_ids w;
              server_filters := server_filters w;
              timeline_sets := <[key := ts]> (timeline_sets w);
              feeds := <[next_handle w := feed]> (feeds w);
              next_handle := S (next_handle w); console := console w |},
           inr ts)
      end
  end.

(** Modelled from the spec: an operation on the feed behind a handle; a handle
    that names no feed is an error. *)
Definition on_feed {A : Type} (handle : nat) (op : Feed → Feed * A) (w : World)
    : World * (Error + A) :=
  match feeds w !! handle with
  | Some f => let (f', a) := op f in (with_feeds w (<[handle := f']> (feeds w)), inr a)
  | None => (w, inl (mkError "no such timeline"))
  end.

(** Modelled from the spec: the external interfaces of the controller, put
    together from the operations above. *)
Definition handler (s : Session) : Handler World := fun c =>
  match c as c0 return World → World * ExtResp c0 with
  | ClientUserId => fun w => (w, userId s)
  | ClientIsGuest => fun w => (w, guest s)
  | ClientGetRoom roomId => fun w => (w, rooms s !! roomId)
  | ClientIsRoomEncrypted roomId => fun w => (w, bool_decide (roomId ∈ encrypted s))
  | ClientGetOrCreateFilter name filter => getOrCreateFilter name filter
  | RoomGetOrCreateFilteredTimelineSet room filter => getOrCreateFilteredTimelineSet s room filter
  | TimelineSetGetLiveTimeline ts => fun w => (w, mkTimeline (ts_handle ts))
  | EventIndexPegGet => fun w => (w, index s)
  | IndexPopulateFileTimeline _ ts timeline _ limit =>
      on_feed (tl_handle timeline) (fun f => (populate limit f, tt))
  | IndexPaginateTimelineWindow _ _ window direction limit =>
      on_feed (win_handle window) (index_paginate direction limit)
  | WindowPaginate window direction limit =>
      on_feed (win_handle window) (window_paginate direction limit)
  | ConsoleError msg error => fun w => (with_console w (console w ++ [(msg, error)]), tt)
  end.

(** A fresh world: nothing cached, nothing created, the network up. *)
Definition empty_world : World :=
  {| faults := []; filter_ids := ∅; server_filters := []; timeline_sets := ∅;
     feeds := ∅; next_handle := 0; console := [] |}.

(** Modelled from the spec: what can happen to a feed after acquisition.  The
    view asks the panel for another page, which runs the panel's
    [onPaginationRequest], or the session delivers a live event. *)
Inductive Op : Type :=
| Paginate (direction : Direction) (limit : Z)
| Deliver (e : MEvent).

Definition apply_op (s : Session) (window : TimelineWindow) (st : Component * World)
    (op : Op) : Component * World :=
  match op with
  | Paginate direction limit =>
      final (run (handler s) (FilePanel.onPaginationRequest window direction limit) st)
  | Deliver e =>
      (st.1, (on_feed (win_handle window) (fun f => (deliver e f, tt)) st.2).1)
  end.

Definition apply_ops (s : Session) (window : TimelineWindow) (st : Component * World)
    (ops : list Op) : Component * World :=
  foldl (apply_op s window) st ops.

(** The live events of a run of operations that the filter lets through. *)
Definition delivered (definition : Json) (ops : list Op) : list MEvent :=
  omap (fun op => match op with
                  | Deliver e => if filter_matches definition e then Some e else None
                  | Paginate _ _ => None
                  end) ops.

End SpecWorld.

(** ** Filter requests of activations in flight *)

(** The name and the filter that [fetchFileEventsServer] builds for a user. *)
Definition file_filter_name (u : string) : string := "FILTER_FILES_" +:+ u.
Definition file_filter (u : string) : Filter :=
  setDefinition (new_Filter u) FilePanel.fileFilterDefinition.

Arguments file_filter_name : simpl never.
Arguments file_filter : simpl never.

(** Every filter request a program can still make, when the session answers
    [u] for the user id, carries the given name and filter. *)
Fixpoint requests_only (name : string) (f : Filter) (u : string) {A : Type}
    (p : Prog A) : Prop :=
  match p with
  | Vis c k =>
      match c as c0 return (Resp c0 → Prog A) → Prop with
      | External ClientUserId => fun k => requests_only name f u (k u)
      | External (ClientGetOrCreateFilter name' f') => fun k =>
          name' = name ∧ f' = f ∧ ∀ r, requests_only name f u (k r)
      | _ => fun k => ∀ r, requests_only name f u (k r)
      end k
  | _ => True
  end.

(** What holds of a world [w] reached from [w0] and of the calls logged on the
    way: every filter request was for the user's file filter and resolved to
    the cached identifier, and at most one filter was created. *)
Definition filter_inv (s : SpecWorld.Session) (w0 w : SpecWorld.World) (tr : list Event) : Prop :=
  let u := SpecWorld.userId s in
  Forall (fun rq => rq.1.1 = file_filter_name u ∧ rq.1.2 = file_filter u ∧
                    ∀ id, rq.2 = inr id → SpecWorld.filter_ids w !! file_filter_name u = Some id)
    (filter_requests tr) ∧
  ((SpecWorld.server_filters w = SpecWorld.server_filters w0 ∧
    SpecWorld.filter_ids w !! file_filter_name u = SpecWorld.filter_ids w0 !! file_filter_name u) ∨
   (∃ id, SpecWorld.server_filters w = (SpecWorld.server_filters w0 ++ [(id, file_filter u)])%list ∧
          SpecWorld.filter_ids w0 !! file_filter_name u = None ∧
          SpecWorld.filter_ids w !! file_filter_name u = Some id)).

(** ** States of a mounted entry *)

(** The states a mounted entry goes through. *)
Definition entry_inv (i : ForwardDialog.Instance) : Prop :=
  (ForwardDialog.sendState i = ForwardDialog.CanSend ∧ ForwardDialog.sends i = 0%nat ∧ ForwardDialog.awaiting i = 0%nat) ∨
  (ForwardDialog.sendState i = ForwardDialog.Sending ∧ ForwardDialog.sends i = 1%nat ∧ ForwardDialog.awaiting i = 1%nat) ∨
  ((ForwardDialog.sendState i = ForwardDialog.Sent ∨ ForwardDialog.sendState i = ForwardDialog.Failed) ∧ ForwardDialog.sends i = 1%nat ∧ ForwardDialog.awaiting i = 0%nat).

(** ** Concrete sessions *)

Module Examples.
Import SpecWorld.

Definition abc : Room := mkRoom "!abc:example.org".
Definition enc : Room := mkRoom "!enc:example.org".

Definition photo (id : string) : MEvent :=
  {| event_id := id; event_type := "m.room.message"; has_url := true |}.
Definition text (id : string) : MEvent :=
  {| event_id := id; event_type := "m.room.message"; has_url := false |}.
Definition topic (id : string) : MEvent :=
  {| event_id := id; event_type := "m.room.topic"; has_url := false |}.

(** A registered user who has joined one unencrypted and one encrypted room;
    the search index is available. *)
Definition alice : Session :=
  {| userId := "@alice:example.org";
     guest := false;
     rooms := {[ "!abc:example.org" := abc; "!enc:example.org" := enc ]};
     encrypted := {[ "!enc:example.org" ]};
     index := Some (mkEventIndex 0);
     room_history :=
       {[ "!abc:example.org" := [photo "$5"; text "$4"; photo "$3"; topic "$2"; photo "$1"] ]};
     room_indexed :=
       {[ "!enc:example.org" := [photo "$e3"; text "$e2"; photo "$e1"] ]} |}.

(** A guest, who has joined nothing. *)
Definition visitor : Session :=
  {| userId := "@12345:example.org";
     guest := true;
     rooms := ∅;
     encrypted := ∅;
     index := None;
     room_history := ∅;
     room_indexed := ∅ |}.

Definition panel (roomId : string) : Component :=
  mount {| roomId := roomId; resizeNotifier := None |}.

(** The network fails at the next filter creation. *)
Definition offline : World := with_faults empty_world [true].

(** A world in which the feed of [!abc:example.org] has been acquired and all
    of its history fetched. *)
Definition exhausted : World :=
  with_feeds empty_world
    {[ 0 := {| feed_filter := FilePanel.fileFilterDefinition; older := []; indexed := [];
               newer := []; paged := [photo "$1"; photo "$3"; photo "$5"]; live := [] |} ]}.

(** The world after [alice] has opened the file panel of [!abc:example.org]. *)
Definition acquired : World :=
  (final (run (handler alice) (FilePanel.updateTimelineSet "!abc:example.org")
            (panel "!abc:example.org", empty_world))).2.

(** The feed of that panel: nothing fetched yet. *)
Definition fresh_feed : Feed :=
  {| feed_filter := FilePanel.fileFilterDefinition;
     older := [photo "$5"; text "$4"; photo "$3"; topic "$2"; photo "$1"];
     indexed := []; newer := []; paged := []; live := [] |}.

End Examples.

(** ** More of what a trace says *)

(** The requests for a filtered timeline set, with the room asked, the filter
    handed over and the answer. *)
Definition timeline_set_request_of (ev : Event)
    : option (Room * Filter * (Error + TimelineSet)) :=
  match ev with
  | Ev (External (RoomGetOrCreateFilteredTimelineSet room filter)) answer =>
      Some (room, filter, answer)
  | _ => None
  end.

Definition timeline_set_requests (tr : list Event)
    : list (Room * Filter * (Error + TimelineSet)) :=
  omap timeline_set_request_of tr.

(** The user ids the client answered with. *)
Definition user_ids (tr : list Event) : list string :=
  omap (fun ev => match ev with
                  | Ev (External ClientUserId) userId => Some userId
                  | _ => None
                  end) tr.

(** The live timelines asked for. *)
Definition live_timeline_requests (tr : list Event) : list TimelineSet :=
  omap (fun ev => match ev_call ev with
                  | External (TimelineSetGetLiveTimeline ts) => Some ts
                  | _ => None
                  end) tr.

(** ** The forward dialog's list of rooms *)

Module ForwardList.

(** What the dialog reads of a room. *)
Record Room : Type := {
  roomId : string;
  name : string;
  getMyMembership : string;
  isSpaceRoom : bool;
  maySendMessage : bool;
}.

(** What the dialog reads of the event to forward. *)
Record MatrixEvent : Type := {
  getType : string;
  getContent : Json;
  getRoomId : string;
}.

(** [searchString] occurs in [s]: [String.prototype.includes]. *)
Fixpoint includes (s searchString : string) : bool :=
  String.prefix searchString s ||
  match s with
  | EmptyString => false
  | String _ s' => includes s' searchString
  end.

(** Truthiness of a string that may be [undefined]: the empty string is
    falsy. *)
Definition truthy_string (o : option string) : bool :=
  match o with
  | Some (String _ _) => true
  | _ => false
  end.

(** [cli.sendEvent(roomId, type, content)] *)
Record SendEvent : Type := {
  target : string;
  type : string;
  content : Json;
}.

(** The props of one [Entry] of the list, with its React key. *)
Record EntryProps : Type := {
  key : string;
  room : Room;
  send : SendEvent;
}.

(** The children of the scroll area. *)
Inductive Child : Type :=
| ForwardList_section (title : string) (entries : list EntryProps)
| ForwardList_noResults.

Section Dialog.

(** The collaborators of the dialog: [String.prototype.toLowerCase],
    [sortRooms] of the recent-rooms algorithm, [cli.getVisibleRooms()],
    [SettingsStore.getValue("feature_spaces")] and
    [DMRoomMap.shared().getUserIdForRoomId]. *)
Context (toLowerCase : string → string).
Context (sortRooms : list Room → list Room).
Context (getVisibleRooms : list Room).
Context (feature_spaces : bool).
Context (getUserIdForRoomId : string → option string).

Definition visibleRooms : list Room :=
  sortRooms
    (List.filter
       (fun room => String.eqb (getMyMembership room) "join" &&
                    negb (feature_spaces && isSpaceRoom room))
       getVisibleRooms).

(** The callback of the [reduce] over [visibleRooms]; [arr] holds the rooms
    and the direct messages found so far. *)
Definition sort_in (lcQuery : string) (arr : list Room * list Room) (room : Room)
    : list Room * list Room :=
  if includes (toLowerCase (name room)) lcQuery then
    if truthy_string (getUserIdForRoomId (roomId room)) then (arr.1, arr.2 ++ [room])
    else (arr.1 ++ [room], arr.2)
  else arr.

Definition rooms_dms (query : string) : list Room * list Room :=
  let lcQuery := toLowerCase query in
  foldl (sort_in lcQuery) ([], []) visibleRooms.

Definition entry (event : MatrixEvent) (room : Room) : EntryProps :=
  {| key := roomId room;
     room := room;
     send := {| target := roomId room; type := getType event; content := getContent event |} |}.

(** The three children of the scroll area, each of which may be
    [undefined]. *)
Definition children (query : string) (event : MatrixEvent) : list (option Child) :=
  let (rooms, dms) := rooms_dms query in
  [ if (0 <? length rooms)%nat
    then Some (ForwardList_section "Rooms" (entry event <$> rooms)) else None;
    if (0 <? length dms)%nat
    then Some (ForwardList_section "Direct Messages" (entry event <$> dms)) else None;
    if (length rooms + length dms <? 1)%nat then Some ForwardList_noResults else None ].

(** Whether a room is listed for a query, and whether it is listed as a
    direct message. *)
Definition matches (query : string) (room : Room) : bool :=
  includes (toLowerCase (name room)) (toLowerCase query).

Definition is_dm (room : Room) : bool :=
  truthy_string (getUserIdForRoomId (roomId room)).

End Dialog.

(** All the entries among some children. *)
Definition entries_of (cs : list (option Child)) : list EntryProps :=
  mjoin (omap (fun c => match c with
                        | Some (ForwardList_section _ entries) => Some entries
                        | _ => None
                        end) cs).

(** An instance of [toLowerCase] for strings of ASCII characters. *)
Fixpoint ascii_toLowerCase (s : string) : string :=
  match s with
  | EmptyString => EmptyString
  | String c s' =>
      let n := Ascii.nat_of_ascii c in
      String (if ((65 <=? n) && (n <=? 90))%nat then Ascii.ascii_of_nat (n + 32) else c)
        (ascii_toLowerCase s')
  end.

End ForwardList.

(** ** A concrete forward dialog *)

Module ForwardExamples.
Import ForwardList.

Definition general : Room :=
  {| roomId := "!general:example.org"; name := "General Chat"; getMyMembership := "join";
     isSpaceRoom := false; maySendMessage := true |}.
Definition announcements : Room :=
  {| roomId := "!news:example.org"; name := "Announcements"; getMyMembership := "join";
     isSpaceRoom := false; maySendMessage := false |}.
Definition bob : Room :=
  {| roomId := "!bob:example.org"; name := "Bob"; getMyMembership := "join";
     isSpaceRoom := false; maySendMessage := true |}.
Definition invited : Room :=
  {| roomId := "!party:example.org"; name := "Party"; getMyMembership := "invite";
     isSpaceRoom := false; maySendMessage := false |}.
Definition space : Room :=
  {| roomId := "!space:example.org"; name := "Chat Space"; getMyMembership := "join";
     isSpaceRoom := true; maySendMessage := true |}.

Definition all_rooms : list Room := [general; invited; bob; space; announcements].

(** The direct-message map knows [bob]'s room. *)
Definition dm_map (roomId : string) : option string :=
  if String.eqb roomId "!bob:example.org" then Some "@bob:example.org" else None.

Definition picture : MatrixEvent :=
  {| getType := "m.room.message";
     getContent := JObject [("msgtype", JString "m.image"); ("body", JString "cat.png")];
     getRoomId := "!abc:example.org" |}.

End ForwardExamples.

(** * Properties *)

(** Name the answer the handler [h] gives to the next call of the run. *)
Ltac answer h :=
  match goal with
  | |- context [h ?c ?w] =>
      let w' := fresh "w" in
      let r := fresh "r" in
      destruct (h c w) as [w' r] eqn:?; cbn in *;
      lazymatch type of r with
      | unit => destruct r
      | _ => idtac
      end
  end.

(** Use an assumption [H] on what [h] answers in every world. *)
Ltac known h H :=
  match goal with
  | Heq : h ?c ?w = (_, _) |- _ =>
      let Hx := fresh in
      pose proof (H w) as Hx; rewrite Heq in Hx; cbn in Hx; subst; clear Heq
  end.

Section FilePanelFacts.
Import FilePanel.
Context {W : Type} (h : Handler W).

(** ** [render] *)

Lemma render_result (this : Component) (w : W) :
  outcome (run h render (this, w)) =
    Returned (if (h ClientIsGuest w).2 then guestView
              else if truthy_flag (noRoom this) then notJoinedView
              else match timelineSet (state this) with
                   | Some ts => feedView (props this) ts
                   | None => loaderView
                   end).
Proof.
  cbn. destruct (h ClientIsGuest w) as [w1 [|]]; cbn; [done|].
  destruct (truthy_flag (noRoom this)); cbn; [done|].
  by destruct (timelineSet (state this)).
Qed.

Lemma render_final (this : Component) (w : W) :
  (final (run h render (this, w))).1 = this.
Proof.
  cbn. destruct (h ClientIsGuest w) as [w1 [|]]; cbn; [done|].
  destruct (truthy_flag (noRoom this)); cbn; [done|].
  by destruct (timelineSet (state this)).
Qed.

(** [updateTimelineSet] records in [this.noRoom] whether the room store had
    the room, whatever happens afterwards. *)
Lemma updateTimelineSet_records_room (this : Component) (w : W) (rid : string) :
  noRoom (final (run h (updateTimelineSet rid) (this, w))).1 =
    Some (negb (truthy_obj (h (ClientGetRoom rid) w).2)).
Proof.
  cbn. answer h.
  match goal with o : option Room |- _ => destruct o as [room|]; cbn end.
  2: { answer h. by answer h. }
  answer h. answer h. answer h. answer h.
  match goal with s : (Error + string)%type |- _ => destruct s as [?|fid]; cbn end.
  { by answer h. }
  answer h.
  match goal with s : (Error + TimelineSet)%type |- _ => destruct s as [?|ts]; cbn end.
  { by answer h. }
  answer h.
  match goal with
  | e : bool, i : option EventIndex |- _ => destruct e, i as [index|]; cbn
  end; try done.
  answer h. answer h.
  match goal with s : (Error + unit)%type |- _ => destruct s as [?|[]]; cbn end; [|done].
  by answer h.
Qed.

End FilePanelFacts.

Lemma views_distinct (p : Props) (ts : TimelineSet) :
  FilePanel.guestView ≠ FilePanel.notJoinedView ∧
  FilePanel.guestView ≠ FilePanel.loaderView ∧
  FilePanel.guestView ≠ FilePanel.feedView p ts ∧
  FilePanel.notJoinedView ≠ FilePanel.loaderView ∧
  FilePanel.notJoinedView ≠ FilePanel.feedView p ts ∧
  FilePanel.loaderView ≠ FilePanel.feedView p ts.
Proof. repeat split; discriminate. Qed.

(** C9. [render] always returns, and returns one of four pairwise different
    trees: the register message for a guest; otherwise the join message when
    [this.noRoom] is set; otherwise the timeline panel when the state holds a
    timeline set and the spinner when it does not.  The spinner is returned
    exactly for a non-guest whose [noRoom] flag is not set and whose state
    holds no timeline set.  The flag is how the panel knows of the room: every
    acquisition sets it to whether the room store had no room object.
    Rendering leaves the component as it was. *)
Theorem render_four_states {W : Type} (h : Handler W) (this : Component) (w : W) :
  let r := run h FilePanel.render (this, w) in
  let guest := (h ClientIsGuest w).2 in
  (final r).1 = this ∧
  outcome r =
    Returned (if guest then FilePanel.guestView
              else if truthy_flag (noRoom this) then FilePanel.notJoinedView
              else match timelineSet (state this) with
                   | Some ts => FilePanel.feedView (props this) ts
                   | None => FilePanel.loaderView
                   end) ∧
  (outcome r = Returned FilePanel.guestView ∨
   outcome r = Returned FilePanel.notJoinedView ∨
   outcome r = Returned FilePanel.loaderView ∨
   ∃ ts, outcome r = Returned (FilePanel.feedView (props this) ts)) ∧
  (outcome r = Returned FilePanel.guestView ↔ guest = true) ∧
  (outcome r = Returned FilePanel.notJoinedView ↔
     guest = false ∧ truthy_flag (noRoom this) = true) ∧
  (outcome r = Returned FilePanel.loaderView ↔
     guest = false ∧ truthy_flag (noRoom this) = false ∧ timelineSet (state this) = None) ∧
  (∀ ts, outcome r = Returned (FilePanel.feedView (props this) ts) ↔
     guest = false ∧ truthy_flag (noRoom this) = false ∧ timelineSet (state this) = Some ts) ∧
  (∀ rid this0 w0,
     noRoom (final (run h (FilePanel.updateTimelineSet rid) (this0, w0))).1 =
       Some (negb (truthy_obj (h (ClientGetRoom rid) w0).2))).
Proof.
  intros r guest. subst r guest.
  split; [apply render_final|].
  rewrite render_result.
  destruct (h ClientIsGuest w).2, (truthy_flag (noRoom this)),
    (timelineSet (state this)) as [ts0|];
    (split; [reflexivity|]);
    (split; [eauto 6|]);
    repeat split; try (intros; apply updateTimelineSet_records_room);
    try discriminate; try tauto; try (intros [? ?]; discriminate);
    try (intros (? & ? & ?); discriminate); try congruence.
  - match goal with H : Returned _ = Returned _ |- _ => by injection H as -> end.
  - intros (_ & _ & [= ->]). reflexivity.
Qed.

(** ** Acquiring the feed of a room that is not joined *)

(** C1, as the code has it.  When the room store has no room object for
    [roomId], [updateTimelineSet] looks the room up, fetches the index handle,
    sets [this.noRoom] and logs one error: it makes no filter request and no
    call that reaches the server or the index, it leaves the state (so the
    timeline set stays [null]) and returns.  Afterwards [render] gives the join
    message when the user is not a guest, and the register message when the
    user is one. *)
Theorem updateTimelineSet_not_joined {W : Type} (h : Handler W)
    (this : Component) (w : W) (rid : string) :
  (h (ClientGetRoom rid) w).2 = None →
  let r := run h (FilePanel.updateTimelineSet rid) (this, w) in
  outcome r = Returned tt ∧
  (∃ ei, trace r =
     [Ev (ClientGetRoom rid) None; Ev EventIndexPegGet ei; Ev (SetNoRoom true) tt;
      Ev (ConsoleError "Failed to add filtered timelineSet for FilePanel as no room!" None) tt]) ∧
  filter_requests (trace r) = [] ∧
  List.filter contacts_server_or_index (ext_calls (trace r)) = [] ∧
  state (final r).1 = state this ∧
  noRoom (final r).1 = Some true ∧
  ∀ w', outcome (run h FilePanel.render ((final r).1, w')) =
          Returned (if (h ClientIsGuest w').2 then FilePanel.guestView
                    else FilePanel.notJoinedView).
Proof.
  intros Hroom r. subst r. cbn.
  answer h. subst. answer h. answer h.
  repeat split; try by eexists.
  intros w'. answer h. by case_match.
Qed.

(** At [!xyz:example.org], which [alice] has not joined. *)
Lemma updateTimelineSet_not_joined_witness :
  let h := SpecWorld.handler Examples.alice in
  let this := Examples.panel "!xyz:example.org" in
  let r := run h (FilePanel.updateTimelineSet "!xyz:example.org") (this, SpecWorld.empty_world) in
  (h (ClientGetRoom "!xyz:example.org") SpecWorld.empty_world).2 = None ∧
  outcome r = Returned tt ∧
  timelineSet (state (final r).1) = None ∧
  outcome (run h FilePanel.render ((final r).1, (final r).2)) = Returned FilePanel.notJoinedView.
Proof.
  pose proof (updateTimelineSet_not_joined (SpecWorld.handler Examples.alice)
    (Examples.panel "!xyz:example.org") SpecWorld.empty_world "!xyz:example.org" eq_refl)
    as (Hout & _ & _ & _ & Hstate & _ & Hview).
  cbv zeta. split; [reflexivity|]. split; [exact Hout|].
  split; [by rewrite Hstate|]. exact (Hview _).
Defined.

(** C1 as stated fails for a guest: the room is not joined, no server call is
    made, yet the view shows the register message, not the join message. *)
Lemma not_joined_guest_sees_register :
  let h := SpecWorld.handler Examples.visitor in
  let this := Examples.panel "!xyz:example.org" in
  let r := run h (FilePanel.updateTimelineSet "!xyz:example.org") (this, SpecWorld.empty_world) in
  (h (ClientGetRoom "!xyz:example.org") SpecWorld.empty_world).2 = None ∧
  outcome (run h FilePanel.render (final r)) = Returned FilePanel.guestView ∧
  outcome (run h FilePanel.render (final r)) ≠ Returned FilePanel.notJoinedView.
Proof. cbv zeta. split; [reflexivity|]. split; [reflexivity|]. discriminate. Qed.

(** ** Pagination requests *)

(** C2. A pagination request asks for the index handle, the room of
    [this.props.roomId] and whether that room is encrypted, and then makes
    exactly one more call: when the room is encrypted and the index handle is
    not [null], the index's [paginateTimelineWindow] with that room and the
    same window, direction and limit; otherwise the window's own [paginate]
    with the same direction and limit.  The request settles as that call
    does. *)
Theorem onPaginationRequest_delegates {W : Type} (h : Handler W)
    (this : Component) (w : W)
    (window : TimelineWindow) (direction : Direction) (limit : Z) :
  let r := run h (FilePanel.onPaginationRequest window direction limit) (this, w) in
  let rid := roomId (props this) in
  ∃ (eventIndex : option EventIndex) (room : option Room) (encrypted : bool)
    (settled : Error + bool),
    outcome r = settled_outcome settled ∧
    trace r =
      [Ev EventIndexPegGet eventIndex; Ev ReadThis this; Ev (ClientGetRoom rid) room;
       Ev (ClientIsRoomEncrypted rid) encrypted;
       match encrypted, eventIndex with
       | true, Some index =>
           Ev (IndexPaginateTimelineWindow index room window direction limit) settled
       | _, _ => Ev (WindowPaginate window direction limit) settled
       end] ∧
    List.filter is_pagination (ext_calls (trace r)) =
      [delegate encrypted eventIndex room window direction limit].
Proof.
  intros r rid. subst r rid. cbn.
  destruct (h EventIndexPegGet w) as [w1 eventIndex]; cbn.
  destruct (h (ClientGetRoom (roomId (props this))) w1) as [w2 room]; cbn.
  destruct (h (ClientIsRoomEncrypted (roomId (props this))) w2) as [w3 encrypted]; cbn.
  exists eventIndex, room, encrypted.
  destruct encrypted, eventIndex as [index|]; cbn;
    answer h;
    match goal with s : (Error + bool)%type |- _ => exists s; by destruct s end.
Qed.

(** C6, as the code has it.  [onPaginationRequest] keeps no record of
    requests and rejects none: whatever the component and the collaborators
    are like when it is invoked, it leaves the component as it was, passes the
    request on in exactly one pagination call and settles as that call does.
    The method does not await, so it runs up to that call without
    interruption, also while an earlier request is still in flight.  An error
    can only be the delegate's; serialising requests is left to the delegate
    and to the caller. *)
Theorem onPaginationRequest_rejects_nothing {W : Type} (h : Handler W)
    (this : Component) (w : W)
    (window : TimelineWindow) (direction : Direction) (limit : Z) :
  let r := run h (FilePanel.onPaginationRequest window direction limit) (this, w) in
  (final r).1 = this ∧
  ∃ settled : Error + bool,
    settlements (trace r) = [settled] ∧ outcome r = settled_outcome settled.
Proof.
  intros r. subst r. cbn.
  destruct (h EventIndexPegGet w) as [w1 eventIndex]; cbn.
  destruct (h (ClientGetRoom (roomId (props this))) w1) as [w2 room]; cbn.
  destruct (h (ClientIsRoomEncrypted (roomId (props this))) w2) as [w3 encrypted]; cbn.
  destruct encrypted, eventIndex as [index|]; cbn;
    answer h;
    match goal with s : (Error + bool)%type |- _ => split; [|exists s]; by destruct s end.
Qed.

(** C6 as stated fails.  On a feed whose history is exhausted a request
    appends nothing and leaves the component and the world as they were; the
    same request, made again on that same window state, is passed to the
    window and resolves to [false]: it is not rejected.  The same holds when
    the second request is made while the first has not yet reached its
    delegate. *)
Lemma repeated_request_is_served :
  let h := SpecWorld.handler Examples.alice in
  let this := Examples.panel "!abc:example.org" in
  let request := FilePanel.onPaginationRequest (mkTimelineWindow 0) Backwards 20 in
  let first := run h request (this, Examples.exhausted) in
  let second := run h request (final first) in
  let both := interleave h [0; 0; 0; 0; 1; 1; 1; 1; 1; 0]
                (start [request; request] (this, Examples.exhausted)) in
  final first = (this, Examples.exhausted) ∧
  outcome first = Returned false ∧
  outcome second = Returned false ∧
  outcome second ≠ Thrown (mkError "AlreadyPaginating") ∧
  settlements (trace second) = [inr false] ∧
  final second = (this, Examples.exhausted) ∧
  activations both = [Ret false; Ret false] ∧
  settlements (log both) = [inr false; inr false].
Proof. cbv zeta. repeat split; try (vm_compute; reflexivity). discriminate. Qed.

(** ** Acquiring the feed of a joined room *)

(** C3. For a joined room that the client reports as encrypted, with the
    index handle available, [updateTimelineSet] makes no pagination call, and
    either the fetch of the timeline set fails, nothing is populated and
    nothing is handed to [setState]; or the timeline set [ts] that the room
    answered with has its live timeline populated through the index, by
    [populateFileTimeline(ts, ts.getLiveTimeline(), room, 1)], and only after
    that call has resolved is [ts], and no other timeline set, handed to
    [setState].  When the population is rejected the state keeps its timeline
    set. *)
Theorem updateTimelineSet_populates_before_exposing {W : Type} (h : Handler W)
    (this : Component) (w : W) (rid : string) (room : Room) (index : EventIndex) :
  (h (ClientGetRoom rid) w).2 = Some room →
  (∀ w', (h (ClientIsRoomEncrypted rid) w').2 = true) →
  (∀ w', (h EventIndexPegGet w').2 = Some index) →
  let r := run h (FilePanel.updateTimelineSet rid) (this, w) in
  settlements (trace r) = [] ∧
  ((exposed (trace r) = [] ∧ populations (trace r) = [] ∧
    timelineSet (state (final r).1) = timelineSet (state this) ∧
    ∃ e, last (trace r) =
           Some (Ev (ConsoleError "Failed to get or create file panel filter" (Some e)) tt))
   ∨
   ∃ (pre : list Event) ts tl settled,
     trace r =
       (pre ++ [Ev (TimelineSetGetLiveTimeline ts) tl;
                Ev (IndexPopulateFileTimeline index ts tl room 1) settled;
                match settled with
                | inr _ => Ev (SetState ts) tt
                | inl e => Ev (ConsoleError "Failed to get or create file panel filter" (Some e)) tt
                end])%list ∧
     exposed pre = [] ∧ populations pre = [] ∧ last (made pre) = Some (inr ts) ∧
     timelineSet (state (final r).1) =
       match settled with inr _ => Some ts | inl _ => timelineSet (state this) end).
Proof.
  intros Hroom Henc Hidx r. subst r. cbn.
  answer h. subst.
  answer h. known h Hidx.
  answer h. answer h. answer h.
  match goal with s : (Error + string)%type |- _ => destruct s as [e|fid]; cbn end.
  { answer h. split; [done|]. left. repeat split; eauto. }
  answer h.
  match goal with s : (Error + TimelineSet)%type |- _ => destruct s as [e|ts]; cbn end.
  { answer h. split; [done|]. left. repeat split; eauto. }
  answer h. known h Henc. cbn.
  answer h. answer h.
  match goal with s : (Error + unit)%type |- _ => destruct s as [e|[]]; cbn end.
  - answer h. split; [done|]. right.
    eexists [_; _; _; _; _; _; _; _], ts, _, (inl e). cbn. repeat split.
  - split; [done|]. right.
    eexists [_; _; _; _; _; _; _; _], ts, _, (inr tt). cbn. repeat split.
Qed.

(** At the encrypted room of [alice], whose index is available. *)
Lemma updateTimelineSet_populates_before_exposing_witness :
  let h := SpecWorld.handler Examples.alice in
  let r := run h (FilePanel.updateTimelineSet "!enc:example.org")
             (Examples.panel "!enc:example.org", SpecWorld.empty_world) in
  (h (ClientGetRoom "!enc:example.org") SpecWorld.empty_world).2 = Some Examples.enc ∧
  (∀ w', (h (ClientIsRoomEncrypted "!enc:example.org") w').2 = true) ∧
  (∀ w', (h EventIndexPegGet w').2 = Some (mkEventIndex 0)) ∧
  settlements (trace r) = [].
Proof.
  cbv zeta.
  assert (Hroom : (SpecWorld.handler Examples.alice (ClientGetRoom "!enc:example.org")
                     SpecWorld.empty_world).2 = Some Examples.enc) by reflexivity.
  assert (Henc : ∀ w', (SpecWorld.handler Examples.alice
                          (ClientIsRoomEncrypted "!enc:example.org") w').2 = true)
    by (intros w'; reflexivity).
  assert (Hidx : ∀ w', (SpecWorld.handler Examples.alice EventIndexPegGet w').2
                       = Some (mkEventIndex 0)) by (intros w'; reflexivity).
  split; [exact Hroom|]. split; [exact Henc|]. split; [exact Hidx|].
  exact (proj1 (updateTimelineSet_populates_before_exposing _ _ _ _ _ _ Hroom Henc Hidx)).
Defined.

(** The run of that acquisition: one event comes from the index, and the
    timeline set is exposed after it. *)
Example acquire_encrypted :
  let h := SpecWorld.handler Examples.alice in
  let r := run h (FilePanel.updateTimelineSet "!enc:example.org")
             (Examples.panel "!enc:example.org", SpecWorld.empty_world) in
  populations (trace r) =
    [(mkEventIndex 0, mkTimelineSet 0, mkTimeline 0, Examples.enc, 1%Z)] ∧
  exposed (trace r) = [mkTimelineSet 0] ∧
  SpecWorld.events <$> (SpecWorld.feeds (final r).2 !! 0) = Some [Examples.photo "$e3"].
Proof. cbv zeta. repeat split; vm_compute; reflexivity. Qed.

(** C4, as the code has it.  When the filter request, the request for the
    timeline set or the population is rejected, [updateTimelineSet] catches
    the error and returns: the error is logged once, the filter is requested
    once and the other two calls at most once, nothing is handed to [setState]
    and the state is as before.  Afterwards [render], for a user who is not a
    guest and a state that held no timeline set, still gives the spinner; the
    panel has no tree of its own for a failed acquisition. *)
Theorem updateTimelineSet_failure_is_terminal {W : Type} (h : Handler W)
    (this : Component) (w : W) (rid : string) :
  existsb rejected (trace (run h (FilePanel.updateTimelineSet rid) (this, w))) = true →
  let r := run h (FilePanel.updateTimelineSet rid) (this, w) in
  outcome r = Returned tt ∧
  (∃ e, console_errors (trace r) = [("Failed to get or create file panel filter", Some e)]) ∧
  length (filter_requests (trace r)) = 1 ∧
  (length (made (trace r)) ≤ 1)%nat ∧
  (length (populations (trace r)) ≤ 1)%nat ∧
  exposed (trace r) = [] ∧
  state (final r).1 = state this ∧
  noRoom (final r).1 = Some false ∧
  ∀ w', outcome (run h FilePanel.render ((final r).1, w')) =
          Returned (if (h ClientIsGuest w').2 then FilePanel.guestView
                    else match timelineSet (state this) with
                         | Some ts => FilePanel.feedView (props this) ts
                         | None => FilePanel.loaderView
                         end).
Proof.
  intros Hrej r. subst r. revert Hrej. cbn.
  answer h.
  match goal with o : option Room |- _ => destruct o as [room|]; cbn end.
  2: { answer h. answer h. discriminate. }
  answer h. answer h. answer h. answer h.
  match goal with s : (Error + string)%type |- _ => destruct s as [e|fid]; cbn end.
  { answer h. intros _. repeat split; eauto; try lia.
    intros w'. answer h. by repeat (case_match; cbn). }
  answer h.
  match goal with s : (Error + TimelineSet)%type |- _ => destruct s as [e|ts]; cbn end.
  { answer h. intros _. repeat split; eauto; try lia.
    intros w'. answer h. by repeat (case_match; cbn). }
  answer h.
  match goal with
  | e : bool, i : option EventIndex |- _ => destruct e, i as [index|]; cbn
  end; try discriminate.
  answer h. answer h.
  match goal with s : (Error + unit)%type |- _ => destruct s as [e|[]]; cbn end;
    try discriminate.
  answer h. intros _. repeat split; eauto; try lia.
  intros w'. answer h. by repeat (case_match; cbn).
Qed.

(** At [alice]'s unencrypted room, with the network down. *)
Lemma updateTimelineSet_failure_is_terminal_witness :
  let h := SpecWorld.handler Examples.alice in
  let r := run h (FilePanel.updateTimelineSet "!abc:example.org")
             (Examples.panel "!abc:example.org", Examples.offline) in
  existsb rejected (trace r) = true ∧
  outcome r = Returned tt ∧
  timelineSet (state (final r).1) = None.
Proof.
  cbv zeta.
  assert (Hrej : existsb rejected
            (trace (run (SpecWorld.handler Examples.alice)
                      (FilePanel.updateTimelineSet "!abc:example.org")
                      (Examples.panel "!abc:example.org", Examples.offline))) = true)
    by reflexivity.
  pose proof (updateTimelineSet_failure_is_terminal _ _ _ _ Hrej)
    as (Hout & _ & _ & _ & _ & _ & Hstate & _).
  split; [exact Hrej|]. split; [exact Hout|]. by rewrite Hstate.
Defined.

(** C4 as stated fails in its last part.  With the network down the
    acquisition for a joined room fails, and the panel then renders the
    spinner, the very tree it renders while the acquisition is under way; the
    spinner carries no empty-state message, unlike the other three trees. *)
Lemma failed_acquisition_shows_spinner :
  let h := SpecWorld.handler Examples.alice in
  let this := Examples.panel "!abc:example.org" in
  let r := run h (FilePanel.updateTimelineSet "!abc:example.org") (this, Examples.offline) in
  existsb rejected (trace r) = true ∧
  outcome (run h FilePanel.render (final r)) = Returned FilePanel.loaderView ∧
  outcome (run h FilePanel.render (this, Examples.offline)) = Returned FilePanel.loaderView ∧
  shows_empty_state FilePanel.loaderView = false ∧
  shows_empty_state FilePanel.guestView = true ∧
  shows_empty_state FilePanel.notJoinedView = true ∧
  shows_empty_state (FilePanel.feedView (props this) (mkTimelineSet 0)) = true.
Proof. cbv zeta. repeat split; vm_compute; reflexivity. Qed.

(** ** Filter creation under concurrent acquisitions *)

Lemma updateTimelineSet_requests (u rid : string) :
  requests_only ("FILTER_FILES_" +:+ u)
    (setDefinition (new_Filter u) FilePanel.fileFilterDefinition) u
    (FilePanel.updateTimelineSet rid).
Proof.
  cbn. intros [room|] ei []; cbn; [|done].
  repeat split. intros [?|fid]; cbn; [done|].
  intros [?|ts]; cbn; [done|].
  intros [|]; destruct ei; cbn; try done.
  intros tl [?|[]]; cbn; done.
Qed.

Section FilterOnce.
Import SpecWorld.
Context (s : Session).

Lemma handler_keeps_filters (c : ExtCall) (w : World) :
  is_filter_request c = false →
  filter_ids (handler s c w).1 = filter_ids w ∧
  server_filters (handler s c w).1 = server_filters w.
Proof.
  destruct c; cbn; try done; intros _.
  - unfold getOrCreateFilteredTimelineSet. repeat case_match; done.
  - unfold on_feed. repeat case_match; done.
  - unfold on_feed. repeat case_match; done.
  - unfold on_feed. repeat case_match; done.
Qed.

Lemma filter_requests_snoc (tr : list Event) (ev : Event) :
  filter_requests (tr ++ [ev]) = filter_requests tr ++ option_list (filter_request_of ev).
Proof. unfold filter_requests. rewrite omap_app. cbn. by destruct (filter_request_of ev). Qed.

Lemma call_keeps_inv (w0 : World) (c : Call) (k : Resp c → Prog unit)
    (this : Component) (w : World) (tr : list Event) :
  requests_only (file_filter_name (userId s)) (file_filter (userId s)) (userId s) (Vis c k) →
  filter_inv s w0 w tr →
  let res := handle (handler s) c (this, w) in
  requests_only (file_filter_name (userId s)) (file_filter (userId s)) (userId s) (k res.2) ∧
  filter_inv s w0 res.1.2 (tr ++ [Ev c res.2]).
Proof.
  intros Hp [Hreq Hsrv]. destruct c as [c|c].
  - (* the component itself *)
    cbn. destruct (on_this c this) as [this' r] eqn:Hc. cbn.
    split; [destruct c; apply Hp|].
    split; [|exact Hsrv].
    rewrite filter_requests_snoc. destruct c; cbn; by rewrite app_nil_r.
  - destruct (is_filter_request c) eqn:Hf.
    + destruct c; try done. cbn in Hp. destruct Hp as (-> & -> & Hk).
      cbn. unfold getOrCreateFilter.
      destruct (filter_ids w !! file_filter_name (userId s)) as [id|] eqn:Hid.
      * (* cached *)
        cbn. split; [apply Hk|]. unfold filter_inv. rewrite Hid.
        split; [|exact Hsrv]. rewrite filter_requests_snoc. cbn.
        apply Forall_app. split; [done|]. apply Forall_singleton. cbn.
        repeat split. by intros ? [= <-].
      * assert (Forall (fun rq => rq.1.1 = file_filter_name (userId s) ∧
                                  rq.1.2 = file_filter (userId s) ∧
                                  ∀ id : string, rq.2 ≠ inr id) (filter_requests tr))
          as Hnone.
        { eapply Forall_impl; [exact Hreq|]. cbn.
          intros rq (? & ? & Hrq). repeat split; try done.
          intros id Heq. specialize (Hrq id Heq). congruence. }
        assert (∀ id, filter_inv s w0
                  {| faults := tail (faults w);
                     filter_ids := <[file_filter_name (userId s) := id]> (filter_ids w);
                     server_filters := server_filters w ++ [(id, file_filter (userId s))];
                     timeline_sets := timeline_sets w; feeds := feeds w;
                     next_handle := next_handle w; console := console w |}
                  (tr ++ [Ev (ClientGetOrCreateFilter (file_filter_name (userId s))
                                (file_filter (userId s))) (inr id)])) as Hcreate.
        { intros id. split.
          - rewrite filter_requests_snoc. cbn. apply Forall_app. split.
            + eapply Forall_impl; [exact Hnone|].
              cbn. intros rq (? & ? & Hn). repeat split; try done.
              intros id' Heq. by destruct (Hn id').
            + apply Forall_singleton. cbn. repeat split.
              intros ? [= <-]. apply lookup_insert_eq.
          - destruct Hsrv as [[Hsf Hfi]|(id' & _ & _ & Hsome)]; [|congruence].
            right. exists id. cbn. rewrite Hsf. split; [done|]. split; [congruence|].
            apply lookup_insert_eq. }
        destruct (faults w) as [|[|] later] eqn:Hfl; cbn.
        -- split; [apply Hk|]. apply Hcreate.
        -- (* the network fails *)
           split; [apply Hk|]. unfold filter_inv. cbn. rewrite Hid.
           split; [|exact Hsrv]. rewrite filter_requests_snoc. cbn.
           apply Forall_app. split; [done|]. apply Forall_singleton. cbn.
           repeat split. intros ? [=].
        -- split; [apply Hk|]. apply Hcreate.
    + pose proof (handler_keeps_filters c w Hf) as [Hfi Hsf].
      cbn. destruct (handler s c w) as [w' r] eqn:Hc. cbn in *.
      split.
      * destruct c; try done; cbn in Hp; try apply Hp.
        cbn in Hc. injection Hc as _ <-. exact Hp.
      * unfold filter_inv. rewrite Hfi, Hsf. split; [|exact Hsrv].
        rewrite filter_requests_snoc.
        assert (filter_request_of (Ev c r) = None) as -> by (by destruct c).
        by rewrite app_nil_r.
Qed.

Lemma advance_keeps_inv (w0 : World) (pool : Pool World unit) (i : nat) :
  Forall (requests_only (file_filter_name (userId s)) (file_filter (userId s)) (userId s))
    (activations pool) →
  filter_inv s w0 (shared pool).2 (log pool) →
  Forall (requests_only (file_filter_name (userId s)) (file_filter (userId s)) (userId s))
    (activations (advance (handler s) pool i)) ∧
  filter_inv s w0 (shared (advance (handler s) pool i)).2 (log (advance (handler s) pool i)).
Proof.
  intros Hacts Hinv. unfold advance.
  destruct (activations pool !! i) as [[a|e|c k]|] eqn:Hi; try done.
  pose proof (Forall_lookup_1 _ _ _ _ Hacts Hi) as Hp.
  destruct (shared pool) as [this w] eqn:Hs.
  pose proof (call_keeps_inv w0 c k this w (log pool) Hp Hinv) as [Hk Hinv'].
  destruct (handle (handler s) c (this, w)) as [[this' w'] r]. simpl in *.
  split; [by apply Forall_insert|done].
Qed.

Lemma interleave_keeps_inv (w0 : World) (schedule : list nat) (pool : Pool World unit) :
  Forall (requests_only (file_filter_name (userId s)) (file_filter (userId s)) (userId s))
    (activations pool) →
  filter_inv s w0 (shared pool).2 (log pool) →
  filter_inv s w0 (shared (interleave (handler s) schedule pool)).2
    (log (interleave (handler s) schedule pool)).
Proof.
  revert pool. induction schedule as [|i schedule IH]; intros pool Hacts Hinv; [done|].
  cbn. destruct (advance_keeps_inv w0 pool i Hacts Hinv) as [Hacts' Hinv'].
  by apply IH.
Qed.

End FilterOnce.

(** C5. For a fixed user, all acquisitions, run together under any schedule,
    request the filter by the same name, ["FILTER_FILES_"] followed by the
    user id, and with the same definition; all the requests that resolve
    resolve to one identifier, and the run creates at most one filter on the
    server, and none when the name was already cached. *)
Theorem concurrent_acquisitions_share_one_filter (s : SpecWorld.Session)
    (this : Component) (w : SpecWorld.World) (rids : list string) (schedule : list nat) :
  let u := SpecWorld.userId s in
  let pool := interleave (SpecWorld.handler s) schedule
                (start (FilePanel.updateTimelineSet <$> rids) (this, w)) in
  Forall (fun rq => rq.1.1 = "FILTER_FILES_" +:+ u ∧
                    rq.1.2 = setDefinition (new_Filter u) FilePanel.fileFilterDefinition)
    (filter_requests (log pool)) ∧
  (∃ id, Forall (fun rq => ∀ id', rq.2 = inr id' → id' = id) (filter_requests (log pool))) ∧
  (∃ created,
     SpecWorld.server_filters (shared pool).2 = SpecWorld.server_filters w ++ created ∧
     (length created ≤ 1)%nat ∧
     Forall (fun cf => cf.2 = setDefinition (new_Filter u) FilePanel.fileFilterDefinition)
       created ∧
     (is_Some (SpecWorld.filter_ids w !! ("FILTER_FILES_" +:+ u)) → created = [])).
Proof.
  intros u pool. subst u.
  assert (filter_inv s w (shared pool).2 (log pool)) as [Hreq Hsrv].
  { apply interleave_keeps_inv.
    - cbn. apply Forall_fmap, Forall_forall. intros rid _. apply updateTimelineSet_requests.
    - split; [by apply Forall_nil|by left]. }
  split; [|split].
  - eapply Forall_impl; [exact Hreq|]. by intros rq (? & ? & _).
  - exists (default "" (SpecWorld.filter_ids (shared pool).2
                          !! file_filter_name (SpecWorld.userId s))).
    eapply Forall_impl; [exact Hreq|]. intros rq (_ & _ & Hid) id' Heq.
    by rewrite (Hid id' Heq).
  - destruct Hsrv as [[Hsf _]|(id & Hsf & Hnone & _)].
    + exists []. rewrite Hsf, app_nil_r. repeat split; [cbn; lia|done].
    + exists [(id, file_filter (SpecWorld.userId s))]. rewrite Hsf.
      split; [done|]. split; [cbn; lia|]. split; [by apply Forall_singleton|].
      intros [? Hsome]. unfold file_filter_name in Hnone. congruence.
Qed.

(** Two acquisitions for the same room, the second reaching the server while
    the first is still waiting: one filter, one identifier. *)
Example two_acquisitions_one_filter :
  let pool := interleave (SpecWorld.handler Examples.alice) [0; 1; 0; 1; 0; 1; 0; 1; 1; 0; 0; 1; 1; 0; 0; 1; 1; 0]
                (start [FilePanel.updateTimelineSet "!abc:example.org";
                        FilePanel.updateTimelineSet "!abc:example.org"]
                   (Examples.panel "!abc:example.org", SpecWorld.empty_world)) in
  (filter_requests (log pool)).*2 = [inr "0"; inr "0"] ∧
  length (SpecWorld.server_filters (shared pool).2) = 1%nat ∧
  activations pool = [Ret tt; Ret tt].
Proof. cbv zeta. repeat split; vm_compute; reflexivity. Qed.

(** ** The forward dialog's entry sends at most once *)

Section EntryFacts.
Import ForwardDialog.

Lemma Entry_enabled (maySendMessage : bool) (s : SendState) :
  disabled (Entry maySendMessage s) = false ↔ maySendMessage = true ∧ s = CanSend.
Proof. destruct maySendMessage, s; cbn; intuition congruence. Qed.

Lemma step_keeps_inv (i : Instance) (x : Input) : entry_inv i → entry_inv (step i x).
Proof.
  unfold entry_inv. destruct i as [s a n]. cbn.
  intros [(-> & -> & ->)|[(-> & -> & ->)|([-> | ->] & -> & ->)]];
    destruct x as [[|]|[|]]; cbn; intuition congruence.
Qed.

Lemma steps_keep_inv (xs : list Input) (i : Instance) :
  entry_inv i → entry_inv (steps i xs).
Proof.
  revert i. induction xs as [|x xs IH]; intros i Hi; [done|].
  cbn. apply IH. by apply step_keeps_inv.
Qed.

Lemma step_never_back (i : Instance) (x : Input) :
  sendState i ≠ CanSend → sendState (step i x) ≠ CanSend.
Proof.
  destruct i as [s a n], x as [[|]|[|]]; cbn; destruct s, a; cbn; congruence.
Qed.

End EntryFacts.

(** C10. Whatever clicks and settlements a mounted entry receives, [send] is
    invoked at most once.  The button is enabled only when the room allows
    sending and the state is [CanSend]; a click on the enabled button invokes
    [send] and moves the state to [Sending]; the settlement of that call moves
    it to [Sent] or [Failed]; and no click or settlement moves a state other
    than [CanSend] back to [CanSend]. *)
Theorem Entry_sends_at_most_once (xs : list ForwardDialog.Input) :
  let i := ForwardDialog.steps ForwardDialog.mounted xs in
  (ForwardDialog.sends i ≤ 1)%nat ∧
  (ForwardDialog.sendState i = ForwardDialog.CanSend ↔ ForwardDialog.sends i = 0%nat) ∧
  (∀ m s, ForwardDialog.disabled (ForwardDialog.Entry m s) = false ↔
            m = true ∧ s = ForwardDialog.CanSend) ∧
  (∀ j, ForwardDialog.sendState j = ForwardDialog.CanSend →
        ForwardDialog.step j (ForwardDialog.Click true) =
          ForwardDialog.mkInstance ForwardDialog.Sending
            (S (ForwardDialog.awaiting j)) (S (ForwardDialog.sends j))) ∧
  (∀ j m, ForwardDialog.sendState j ≠ ForwardDialog.CanSend →
          ForwardDialog.step j (ForwardDialog.Click m) = j) ∧
  (∀ j ok, ForwardDialog.awaiting j ≠ 0%nat →
           ForwardDialog.sendState (ForwardDialog.step j (ForwardDialog.SendSettled ok)) =
             if ok then ForwardDialog.Sent else ForwardDialog.Failed) ∧
  (∀ j x, ForwardDialog.sendState j ≠ ForwardDialog.CanSend →
          ForwardDialog.sendState (ForwardDialog.step j x) ≠ ForwardDialog.CanSend).
Proof.
  intros i.
  assert (entry_inv i) as Hi.
  { apply steps_keep_inv. left. done. }
  split; [|split; [|split; [|split; [|split; [|split]]]]].
  - destruct Hi as [(_ & -> & _)|[(_ & -> & _)|(_ & -> & _)]]; lia.
  - destruct Hi as [(-> & -> & _)|[(-> & -> & _)|([-> | ->] & -> & _)]];
      split; congruence.
  - apply Entry_enabled.
  - intros [s a n]; cbn. by intros ->.
  - intros [s a n] m; cbn. destruct m, s; cbn; congruence.
  - intros [s a n] ok; cbn. destruct a; [done|]. by destruct ok.
  - apply step_never_back.
Qed.

(** A double click, and a click after the message has gone out. *)
Example Entry_double_click :
  ForwardDialog.steps ForwardDialog.mounted
    [ForwardDialog.Click true; ForwardDialog.Click true; ForwardDialog.SendSettled true;
     ForwardDialog.Click true] =
  ForwardDialog.mkInstance ForwardDialog.Sent 0 1.
Proof. reflexivity. Qed.

(** ** The feed under pagination and live delivery *)

Section FeedFacts.
Import SpecWorld.

Lemma fetch_page_spec (d : Json) (history : list MEvent) (n : nat) :
  (fetch_page d n history).1 = take n (List.filter (filter_matches d) history) ∧
  List.filter (filter_matches d) history =
    (fetch_page d n history).1 ++ List.filter (filter_matches d) (fetch_page d n history).2 ∧
  Forall (fun e => filter_matches d e = true) (fetch_page d n history).1.
Proof.
  revert n. induction history as [|e history IH]; intros n.
  - cbn. by destruct n.
  - cbn [fetch_page]. destruct n as [|n].
    + cbn. done.
    + cbn [List.filter]. destruct (filter_matches d e) eqn:He.
      * destruct (IH n) as (IH1 & IH2 & IH3).
        destruct (fetch_page d n history) as [page rest]. cbn in *.
        split; [by f_equal|]. split; [by f_equal|]. by constructor.
      * apply IH.
Qed.

Lemma fetch_page_length (d : Json) (history : list MEvent) (n : nat) :
  (length (fetch_page d n history).1 ≤ n)%nat.
Proof. rewrite (proj1 (fetch_page_spec d history n)). rewrite length_take. lia. Qed.

Lemma fetch_page_again (d : Json) (history : list MEvent) (n : nat) :
  (fetch_page d n history).1 = [] →
  fetch_page d n (fetch_page d n history).2 = ([], (fetch_page d n history).2).
Proof.
  revert n. induction history as [|e history IH]; intros n.
  - cbn. done.
  - cbn [fetch_page]. destruct n as [|n]; [done|].
    destruct (filter_matches d e) eqn:He.
    + destruct (fetch_page d n history); done.
    + apply IH.
Qed.

Lemma appended_false (page : list MEvent) : appended page = false → page = [].
Proof. by destruct page. Qed.

Lemma appended_true (page : list MEvent) : appended page = true ↔ page ≠ [].
Proof. by destruct page. Qed.

Lemma paginate_spec (via_index : bool) (d : Direction) (limit : Z) (f : Feed) :
  let paginate := if via_index then index_paginate else window_paginate in
  let res := paginate d limit f in
  ∃ page,
    paged res.1 = match d with
                  | Backwards => reverse page ++ paged f
                  | Forwards => paged f ++ page
                  end ∧
    live res.1 = live f ∧
    feed_filter res.1 = feed_filter f ∧
    (length page ≤ Z.to_nat limit)%nat ∧
    Forall (fun e => filter_matches (feed_filter f) e = true) page ∧
    res.2 = appended page ∧
    (via_index = false → d = Backwards →
     page = take (Z.to_nat limit) (List.filter (filter_matches (feed_filter f)) (older f))) ∧
    (res.2 = false → paginate d limit res.1 = (res.1, false)).
Proof.
  intros paginate res. subst paginate res.
  assert (∀ g, window_paginate Forwards limit g = index_paginate Forwards limit g) as Hfw by done.
  destruct d.
  - destruct via_index.
    + (* through the index *)
      unfold index_paginate.
      pose proof (fetch_page_spec (feed_filter f) (indexed f) (Z.to_nat limit)) as (_ & _ & Hl).
      pose proof (fetch_page_length (feed_filter f) (indexed f) (Z.to_nat limit)) as Hll.
      pose proof (fetch_page_again (feed_filter f) (indexed f) (Z.to_nat limit)) as Hla.
      destruct (fetch_page (feed_filter f) (Z.to_nat limit) (indexed f)) as [local rest_i].
      cbn [fst snd] in *.
      pose proof (fetch_page_spec (feed_filter f) (older f) (Z.to_nat limit - length local))
        as (_ & _ & Hg).
      pose proof (fetch_page_length (feed_filter f) (older f) (Z.to_nat limit - length local))
        as Hgl.
      pose proof (fetch_page_again (feed_filter f) (older f) (Z.to_nat limit - length local))
        as Hga.
      destruct (fetch_page (feed_filter f) (Z.to_nat limit - length local) (older f))
        as [gap rest_o].
      cbn [fst snd] in *.
      exists (local ++ gap). cbn.
      split; [done|]. split; [done|]. split; [done|].
      split; [rewrite length_app; lia|].
      split; [by apply Forall_app|]. split; [done|]. split; [done|].
      intros Hno. apply appended_false, app_eq_nil in Hno as [-> ->].
      specialize (Hla eq_refl). specialize (Hga eq_refl).
      rewrite Hla. cbn [length] in *. rewrite Hga. done.
    + unfold window_paginate.
      pose proof (fetch_page_spec (feed_filter f) (older f) (Z.to_nat limit)) as (Hp & _ & Hl).
      pose proof (fetch_page_length (feed_filter f) (older f) (Z.to_nat limit)) as Hll.
      pose proof (fetch_page_again (feed_filter f) (older f) (Z.to_nat limit)) as Hla.
      destruct (fetch_page (feed_filter f) (Z.to_nat limit) (older f)) as [page rest].
      cbn [fst snd] in *.
      exists page. cbn.
      repeat (split; [done|]).
      intros Hno. apply appended_false in Hno as ->.
      rewrite (Hla eq_refl). done.
  - assert ((if via_index then index_paginate else window_paginate) Forwards limit
            = window_paginate Forwards limit) as -> by (by destruct via_index).
    unfold window_paginate.
    pose proof (fetch_page_spec (feed_filter f) (newer f) (Z.to_nat limit)) as (Hp & _ & Hl).
    pose proof (fetch_page_length (feed_filter f) (newer f) (Z.to_nat limit)) as Hll.
    pose proof (fetch_page_again (feed_filter f) (newer f) (Z.to_nat limit)) as Hla.
    destruct (fetch_page (feed_filter f) (Z.to_nat limit) (newer f)) as [page rest].
    cbn [fst snd] in *.
    exists page. cbn.
    repeat (split; [done|]).
    intros Hno. apply appended_false in Hno as ->.
    rewrite (Hla eq_refl). by rewrite app_nil_r.
Qed.


Lemma request_in_world (s : Session) (this : Component) (w : World)
    (window : TimelineWindow) (d : Direction) (limit : Z) :
  let via_index := bool_decide (roomId (props this) ∈ encrypted s) && truthy_obj (index s) in
  let res := on_feed (win_handle window)
               ((if via_index then index_paginate else window_paginate) d limit) w in
  let r := run (handler s) (FilePanel.onPaginationRequest window d limit) (this, w) in
  final r = (this, res.1) ∧ outcome r = settled_outcome res.2.
Proof.
  cbn. destruct (bool_decide (roomId (props this) ∈ encrypted s)), (index s); cbn;
    match goal with |- context [on_feed ?h ?op w] => by destruct (on_feed h op w) as [? [?|?]] end.
Qed.

Lemma apply_op_feed (s : Session) (this : Component) (w : World)
    (window : TimelineWindow) (op : Op) (f : Feed) :
  feeds w !! win_handle window = Some f →
  ∃ f', (apply_op s window (this, w) op).1 = this ∧
        feeds (apply_op s window (this, w) op).2 !! win_handle window = Some f' ∧
        feed_filter f' = feed_filter f ∧
        paged f `sublist_of` paged f' ∧
        live f' = live f ++ delivered (feed_filter f) [op].
Proof.
  intros Hf. destruct op as [d limit|e].
  - cbn [apply_op].
    destruct (request_in_world s this w window d limit) as [-> _]. cbn [fst snd].
    unfold on_feed. rewrite Hf.
    set (via_index := bool_decide (roomId (props this) ∈ encrypted s) && truthy_obj (index s)).
    destruct (paginate_spec via_index d limit f) as (page & Hpaged & Hlive & Hfilter & _).
    destruct ((if via_index then index_paginate else window_paginate) d limit f) as [f' b].
    cbn in *.
    exists f'. rewrite lookup_insert_eq, app_nil_r. repeat split; try done.
    rewrite Hpaged. destruct d.
    + by apply sublist_inserts_l.
    + by apply sublist_inserts_r.
  - cbn. unfold on_feed. rewrite Hf. cbn. rewrite lookup_insert_eq.
    eexists. repeat split; unfold deliver.
    + by destruct (filter_matches (feed_filter f) e).
    + by destruct (filter_matches (feed_filter f) e).
    + destruct (filter_matches (feed_filter f) e); cbn; [done|].
      by rewrite app_nil_r.
Qed.

End FeedFacts.

(** C7. With the timeline window and the index as the specification
    describes them, a pagination request on a feed returns a boolean, and the
    boolean is [true] exactly when events were appended to the feed.  The
    events appended are at most [limit] events that match the feed's filter,
    older ones in front for [Backwards] and newer ones behind what was paged
    for [Forwards].  For a room that is not encrypted a [Backwards] request
    appends the nearest [limit] matching events of the server's older history,
    so it returns [true] when there is one and [limit] is positive; and a
    request that returned [false] returns [false] again when repeated with
    nothing new on the server. *)
Theorem paginate_reports_appended (s : SpecWorld.Session) (this : Component)
    (w : SpecWorld.World) (window : TimelineWindow) (d : Direction) (limit : Z)
    (f : SpecWorld.Feed) :
  SpecWorld.feeds w !! win_handle window = Some f →
  let request := FilePanel.onPaginationRequest window d limit in
  let r := run (SpecWorld.handler s) request (this, w) in
  ∃ (b : bool) (f' : SpecWorld.Feed) (page : list SpecWorld.MEvent),
    outcome r = Returned b ∧
    SpecWorld.feeds (final r).2 !! win_handle window = Some f' ∧
    SpecWorld.events f' =
      match d with
      | Backwards => reverse page ++ SpecWorld.events f
      | Forwards => SpecWorld.paged f ++ page ++ SpecWorld.live f
      end ∧
    (length page ≤ Z.to_nat limit)%nat ∧
    Forall (fun e => SpecWorld.filter_matches (SpecWorld.feed_filter f) e = true) page ∧
    (b = true ↔ page ≠ []) ∧
    (b = true ↔ (length (SpecWorld.events f) < length (SpecWorld.events f'))%nat) ∧
    (roomId (props this) ∉ SpecWorld.encrypted s → d = Backwards →
     page = take (Z.to_nat limit)
              (List.filter (SpecWorld.filter_matches (SpecWorld.feed_filter f))
                 (SpecWorld.older f))) ∧
    (b = false → outcome (run (SpecWorld.handler s) request (final r)) = Returned false).
Proof.
  intros Hf request r. subst request r.
  destruct (request_in_world s this w window d limit) as [Hfin Hout].
  rewrite Hfin, Hout. clear Hfin Hout.
  set (via_index := bool_decide (roomId (props this) ∈ SpecWorld.encrypted s)
                    && truthy_obj (SpecWorld.index s)).
  unfold SpecWorld.on_feed at 1 2 3. rewrite Hf.
  destruct (paginate_spec via_index d limit f)
    as (page & Hpaged & Hlive & Hfilter & Hlen & Hall & Hb & Hdirect & Hagain).
  destruct ((if via_index then SpecWorld.index_paginate else SpecWorld.window_paginate)
              d limit f) as [f' b] eqn:Hpag.
  cbn [fst snd] in *. subst b.
  exists (SpecWorld.appended page), f', page. cbn [settled_outcome fst snd].
  assert (SpecWorld.events f' =
            match d with
            | Backwards => reverse page ++ SpecWorld.events f
            | Forwards => SpecWorld.paged f ++ page ++ SpecWorld.live f
            end) as Hev.
  { unfold SpecWorld.events. rewrite Hpaged, Hlive. destruct d; by rewrite <- app_assoc. }
  split; [done|]. split; [cbn; apply lookup_insert_eq|]. split; [done|].
  split; [done|]. split; [done|]. split; [apply appended_true|].
  split; [|split].
  - rewrite appended_true, Hev. unfold SpecWorld.events.
    destruct d; rewrite ?length_app, ?length_reverse; destruct page; cbn; split;
      try done; try lia.
  - intros Hplain Hd. apply Hdirect; [|done].
    subst via_index. by rewrite bool_decide_eq_false_2.
  - intros Hno.
    destruct (request_in_world s this
                (SpecWorld.with_feeds w (<[win_handle window := f']> (SpecWorld.feeds w)))
                window d limit) as [_ ->].
    fold via_index. unfold SpecWorld.on_feed. cbn [SpecWorld.feeds SpecWorld.with_feeds].
    rewrite lookup_insert_eq, (Hagain Hno). done.
Qed.

(** C8. With the timeline window and the index as the specification
    describes them, after any run of pagination requests and live deliveries
    the events the feed already had are still there in the same relative
    order, the same holds of the events fetched by pagination, and the live
    timeline is what it was followed by the delivered events that match the
    filter, in the order of delivery. *)
Theorem feed_order_is_kept (s : SpecWorld.Session) (this : Component)
    (w : SpecWorld.World) (window : TimelineWindow) (ops : list SpecWorld.Op)
    (f : SpecWorld.Feed) :
  SpecWorld.feeds w !! win_handle window = Some f →
  let after := SpecWorld.apply_ops s window (this, w) ops in
  ∃ f' : SpecWorld.Feed,
    SpecWorld.feeds after.2 !! win_handle window = Some f' ∧
    SpecWorld.events f `sublist_of` SpecWorld.events f' ∧
    SpecWorld.paged f `sublist_of` SpecWorld.paged f' ∧
    SpecWorld.live f' = SpecWorld.live f ++ SpecWorld.delivered (SpecWorld.feed_filter f) ops.
Proof.
  intros Hf after. subst after. revert this w f Hf.
  induction ops as [|op ops IH]; intros this w f Hf.
  - exists f. cbn. by rewrite app_nil_r.
  - destruct (apply_op_feed s this w window op f Hf)
      as (f1 & Hthis & Hf1 & Hfilter & Hpaged & Hlive).
    unfold SpecWorld.apply_ops. cbn [foldl].
    destruct (SpecWorld.apply_op s window (this, w) op) as [this1 w1] eqn:Hop.
    cbn [fst snd] in *. subst this1.
    destruct (IH this w1 f1 Hf1) as (f' & Hf' & _ & Hpaged' & Hlive').
    exists f'. split; [exact Hf'|].
    assert (SpecWorld.live f' =
              SpecWorld.live f ++ SpecWorld.delivered (SpecWorld.feed_filter f) (op :: ops))
      as Hl.
    { rewrite Hlive', Hlive, Hfilter, <- app_assoc. f_equal.
      unfold SpecWorld.delivered. cbn. by case_match. }
    split; [|split; [by etrans|exact Hl]].
    unfold SpecWorld.events. rewrite Hl.
    apply sublist_app; [by etrans|]. by apply sublist_inserts_r.
Qed.

(** At the feed [alice] has just acquired for the unencrypted room. *)
Lemma paginate_reports_appended_witness :
  let request := FilePanel.onPaginationRequest (mkTimelineWindow 0) Backwards 20 in
  let r := run (SpecWorld.handler Examples.alice) request
             (Examples.panel "!abc:example.org", Examples.acquired) in
  SpecWorld.feeds Examples.acquired !! 0%nat = Some Examples.fresh_feed ∧
  ∃ (b : bool) (page : list SpecWorld.MEvent),
    outcome r = Returned b ∧ (b = true ↔ page ≠ []) ∧ (length page ≤ 20)%nat.
Proof.
  cbv zeta.
  assert (Hf : SpecWorld.feeds Examples.acquired !! win_handle (mkTimelineWindow 0)
               = Some Examples.fresh_feed) by (vm_compute; reflexivity).
  split; [exact Hf|].
  destruct (paginate_reports_appended Examples.alice (Examples.panel "!abc:example.org")
              Examples.acquired (mkTimelineWindow 0) Backwards 20 Examples.fresh_feed Hf)
    as (b & f' & page & Hout & _ & _ & Hlen & _ & Hb & _).
  exists b, page. split; [exact Hout|]. split; [exact Hb|exact Hlen].
Defined.

(** The scenario of the specification: the three files of the room come in
    one page, oldest first, and the next request reports that nothing was
    appended. *)
Example paginate_unencrypted_room :
  let request := FilePanel.onPaginationRequest (mkTimelineWindow 0) Backwards 20 in
  let h := SpecWorld.handler Examples.alice in
  let first := run h request (Examples.panel "!abc:example.org", Examples.acquired) in
  let second := run h request (final first) in
  outcome first = Returned true ∧
  SpecWorld.events <$> (SpecWorld.feeds (final first).2 !! 0%nat) =
    Some [Examples.photo "$1"; Examples.photo "$3"; Examples.photo "$5"] ∧
  outcome second = Returned false ∧
  SpecWorld.events <$> (SpecWorld.feeds (final second).2 !! 0%nat) =
    Some [Examples.photo "$1"; Examples.photo "$3"; Examples.photo "$5"].
Proof. cbv zeta. repeat split; vm_compute; reflexivity. Qed.

(** At the same feed, for two pages with a live event in between. *)
Lemma feed_order_is_kept_witness :
  let ops := [SpecWorld.Paginate Backwards 2; SpecWorld.Deliver (Examples.photo "$6");
              SpecWorld.Deliver (Examples.text "$7"); SpecWorld.Paginate Backwards 2] in
  let after := SpecWorld.apply_ops Examples.alice (mkTimelineWindow 0)
                 (Examples.panel "!abc:example.org", Examples.acquired) ops in
  SpecWorld.feeds Examples.acquired !! 0%nat = Some Examples.fresh_feed ∧
  ∃ f' : SpecWorld.Feed,
    SpecWorld.feeds after.2 !! 0%nat = Some f' ∧
    SpecWorld.live f' = [Examples.photo "$6"].
Proof.
  cbv zeta.
  assert (Hf : SpecWorld.feeds Examples.acquired !! win_handle (mkTimelineWindow 0)
               = Some Examples.fresh_feed) by (vm_compute; reflexivity).
  split; [exact Hf|].
  destruct (feed_order_is_kept Examples.alice (Examples.panel "!abc:example.org")
              Examples.acquired (mkTimelineWindow 0)
              [SpecWorld.Paginate Backwards 2; SpecWorld.Deliver (Examples.photo "$6");
               SpecWorld.Deliver (Examples.text "$7"); SpecWorld.Paginate Backwards 2]
              Examples.fresh_feed Hf)
    as (f' & Hf' & _ & _ & Hlive).
  exists f'. split; [exact Hf'|]. exact Hlive.
Defined.

Example two_pages_and_a_live_event :
  let ops := [SpecWorld.Paginate Backwards 2; SpecWorld.Deliver (Examples.photo "$6");
              SpecWorld.Deliver (Examples.text "$7"); SpecWorld.Paginate Backwards 2] in
  let after := SpecWorld.apply_ops Examples.alice (mkTimelineWindow 0)
                 (Examples.panel "!abc:example.org", Examples.acquired) ops in
  SpecWorld.events <$> (SpecWorld.feeds after.2 !! 0%nat) =
    Some [Examples.photo "$1"; Examples.photo "$3"; Examples.photo "$5"; Examples.photo "$6"].
Proof. vm_compute. reflexivity. Qed.

(** * Further properties of the file panel *)

Section FilePanelMore.
Import FilePanel.
Context {W : Type} (h : Handler W).

(** X1. [fetchFileEventsServer] reads the user id twice and requests the
    filter once: under the name ["FILTER_FILES_"] followed by the user id, for
    a filter of that user without an identifier and with the file definition.  When that request is rejected
    the room is not asked and the rejection is passed on.  When it resolves,
    the room is asked once, with the same filter now carrying the identifier
    the server assigned, and the result is the room's answer.  The component
    is not touched. *)
Theorem fetchFileEventsServer_assigns_filter_id (this : Component) (w : W) (room : Room) :
  let r := run h (fetchFileEventsServer room) (this, w) in
  (final r).1 = this ∧
  ∃ name filter settled u1 u2,
    user_ids (trace r) = [u1; u2] ∧
    filter_requests (trace r) = [(name, filter, settled)] ∧
    name = "FILTER_FILES_" +:+ u2 ∧
    filter_userId filter = u1 ∧
    filter_filterId filter = None ∧
    filter_definition filter = fileFilterDefinition ∧
    match settled with
    | inl e => timeline_set_requests (trace r) = [] ∧ outcome r = Thrown e
    | inr id =>
        ∃ answer,
          timeline_set_requests (trace r) = [(room, set_filterId filter id, answer)] ∧
          outcome r = settled_outcome answer
    end.
Proof.
  intros r. subst r. cbn.
  answer h. answer h. answer h.
  match goal with s : (Error + string)%type |- _ => destruct s as [e|id]; cbn end.
  { split; [done|]. by eexists _, _, (inl e), _, _. }
  answer h.
  match goal with s : (Error + TimelineSet)%type |- _ => destruct s as [e|ts]; cbn end.
  - split; [done|]. eexists _, _, (inr id), _, _. repeat split. by exists (inl e).
  - split; [done|]. eexists _, _, (inr id), _, _. repeat split. by exists (inr ts).
Qed.

(** Go through every way an acquisition can go. *)
Ltac acquisition h :=
  cbn; answer h;
  match goal with o : option Room |- _ => destruct o as [?room|]; cbn end;
  [ answer h; answer h; answer h; answer h;
    match goal with s : (Error + string)%type |- _ => destruct s as [?e|?id]; cbn end;
    [ answer h
    | answer h;
      match goal with s : (Error + TimelineSet)%type |- _ => destruct s as [?e|?ts]; cbn end;
      [ answer h
      | answer h;
        match goal with
        | e : bool, i : option EventIndex |- _ => destruct e, i as [?index|]; cbn
        end;
        [ answer h; answer h;
          match goal with s : (Error + unit)%type |- _ => destruct s as [?e|[]]; cbn end;
          [ answer h | ]
        | | | ] ] ]
  | answer h; answer h ].

(** X2. [updateTimelineSet] never throws: whatever the collaborators answer,
    and whichever of their calls is rejected, it returns.  So does
    [componentDidMount], which awaits it. *)
Theorem updateTimelineSet_never_throws (this : Component) (w : W) (rid : string) :
  outcome (run h (updateTimelineSet rid) (this, w)) = Returned tt ∧
  outcome (run h componentDidMount (this, w)) = Returned tt.
Proof.
  split.
  - acquisition h; done.
  - change (run h componentDidMount (this, w)) with
      (let rest := run h (updateTimelineSet (roomId (props this))) (this, w) in
       mkRun (final rest) (Ev ReadThis this :: trace rest) (outcome rest)).
    cbv zeta. cbn [outcome]. acquisition h; done.
Qed.

(** X3. Every acquisition ends in exactly one of two ways: it hands one
    timeline set to [setState], or it logs one error.  It requests the filter,
    the timeline set and the population at most once each, leaves the props
    alone, and the state afterwards holds the exposed timeline set, or what it
    held before when none was exposed. *)
Theorem updateTimelineSet_ends_one_way (this : Component) (w : W) (rid : string) :
  let r := run h (updateTimelineSet rid) (this, w) in
  length (exposed (trace r)) + length (console_errors (trace r)) = 1%nat ∧
  (length (filter_requests (trace r)) ≤ 1)%nat ∧
  (length (timeline_set_requests (trace r)) ≤ 1)%nat ∧
  (length (populations (trace r)) ≤ 1)%nat ∧
  props (final r).1 = props this ∧
  timelineSet (state (final r).1) =
    match exposed (trace r) with
    | ts :: _ => Some ts
    | [] => timelineSet (state this)
    end ∧
  (exposed (trace r) = [] ↔
     (h (ClientGetRoom rid) w).2 = None ∨ existsb rejected (trace r) = true).
Proof.
  intros r. subst r. acquisition h;
    (repeat split; cbn; try done; try lia; try (by right); try (by left);
     try (by intros [?|?]); try (intros; discriminate)).
Qed.

(** X4. The index is used for encrypted rooms only, and only when there is
    one: when the client reports the room as not encrypted, or
    [EventIndexPeg.get()] is [null], an acquisition asks for no live timeline
    and populates nothing. *)
Theorem updateTimelineSet_skips_index (this : Component) (w : W) (rid : string) :
  (∀ w', (h (ClientIsRoomEncrypted rid) w').2 = false) ∨
  (∀ w', (h EventIndexPegGet w').2 = None) →
  let r := run h (updateTimelineSet rid) (this, w) in
  populations (trace r) = [] ∧ live_timeline_requests (trace r) = [].
Proof.
  intros Hno r. subst r. cbn.
  answer h.
  match goal with o : option Room |- _ => destruct o as [room|]; cbn end.
  2: { answer h. by answer h. }
  destruct Hno as [Hno|Hno].
  - (* not encrypted *)
    answer h. answer h. answer h. answer h.
    match goal with s : (Error + string)%type |- _ => destruct s as [?|id]; cbn end.
    { by answer h. }
    answer h.
    match goal with s : (Error + TimelineSet)%type |- _ => destruct s as [?|ts]; cbn end.
    { by answer h. }
    answer h. known h Hno. done.
  - (* no index *)
    answer h. known h Hno. answer h. answer h. answer h.
    match goal with s : (Error + string)%type |- _ => destruct s as [?|id]; cbn end.
    { by answer h. }
    answer h.
    match goal with s : (Error + TimelineSet)%type |- _ => destruct s as [?|ts]; cbn end.
    { by answer h. }
    answer h. by case_match.
Qed.

(** X5. The life of a panel of a user who is not a guest.  Before
    [componentDidMount] has run, [render] gives the spinner, also for a room
    that is not joined.  After it has run, [render] gives the join message
    when the room store had no room object; the timeline panel, keyed by the
    room id, for the timeline set the room answered with when no call was
    rejected; and the spinner when a call was rejected. *)
Theorem componentDidMount_then_render (p : Props) (w : W) :
  (∀ w', (h ClientIsGuest w').2 = false) →
  let r := run h componentDidMount (mount p, w) in
  (∀ w', outcome (run h render (mount p, w')) = Returned loaderView) ∧
  ∀ w', outcome (run h render ((final r).1, w')) =
          Returned match (h (ClientGetRoom (roomId p)) w).2 with
                   | None => notJoinedView
                   | Some _ =>
                       if existsb rejected (trace r) then loaderView
                       else match made (trace r) with
                            | inr ts :: _ => feedView p ts
                            | _ => loaderView
                            end
                   end.
Proof.
  intros Hguest r. split.
  - intros w'. rewrite render_result, Hguest. done.
  - intros w'. rewrite render_result, Hguest. subst r.
    change (run h componentDidMount (mount p, w)) with
      (let rest := run h (updateTimelineSet (roomId p)) (mount p, w) in
       mkRun (final rest) (Ev ReadThis (mount p) :: trace rest) (outcome rest)).
    cbv zeta. cbn [final trace]. clear Hguest w'.
    acquisition h; done.
Qed.

End FilePanelMore.

(** At [alice]'s unencrypted room. *)
Lemma updateTimelineSet_skips_index_witness :
  let h := SpecWorld.handler Examples.alice in
  let r := run h (FilePanel.updateTimelineSet "!abc:example.org")
             (Examples.panel "!abc:example.org", SpecWorld.empty_world) in
  (∀ w', (h (ClientIsRoomEncrypted "!abc:example.org") w').2 = false) ∧
  populations (trace r) = [] ∧ exposed (trace r) = [mkTimelineSet 0].
Proof.
  cbv zeta.
  assert (Hplain : ∀ w', (SpecWorld.handler Examples.alice
                            (ClientIsRoomEncrypted "!abc:example.org") w').2 = false)
    by (intros w'; reflexivity).
  split; [exact Hplain|].
  split; [|reflexivity].
  exact (proj1 (updateTimelineSet_skips_index (SpecWorld.handler Examples.alice)
                  (Examples.panel "!abc:example.org") SpecWorld.empty_world
                  "!abc:example.org" (or_introl Hplain))).
Defined.

(** At [alice]'s unencrypted room: the panel ends on the timeline panel. *)
Lemma componentDidMount_then_render_witness :
  let h := SpecWorld.handler Examples.alice in
  let p := {| roomId := "!abc:example.org"; resizeNotifier := None |} in
  let r := run h FilePanel.componentDidMount (mount p, SpecWorld.empty_world) in
  (∀ w', (h ClientIsGuest w').2 = false) ∧
  outcome (run h FilePanel.render (final r)) =
    Returned (FilePanel.feedView p (mkTimelineSet 0)).
Proof.
  cbv zeta.
  assert (Hguest : ∀ w', (SpecWorld.handler Examples.alice ClientIsGuest w').2 = false)
    by (intros w'; reflexivity).
  split; [exact Hguest|].
  exact (proj2 (componentDidMount_then_render (SpecWorld.handler Examples.alice)
                  {| roomId := "!abc:example.org"; resizeNotifier := None |}
                  SpecWorld.empty_world Hguest) _).
Defined.

(** * Properties of the forward dialog's list *)

Section ForwardListFacts.
Context (toLowerCase : string → string).
Context (sortRooms : list ForwardList.Room → list ForwardList.Room).
Context (getVisibleRooms : list ForwardList.Room).
Context (feature_spaces : bool).
Context (getUserIdForRoomId : string → option string).

Local Abbreviation visibleRooms :=
  (ForwardList.visibleRooms sortRooms getVisibleRooms feature_spaces).
Local Abbreviation rooms_dms :=
  (ForwardList.rooms_dms toLowerCase sortRooms getVisibleRooms feature_spaces
     getUserIdForRoomId).
Local Abbreviation children :=
  (ForwardList.children toLowerCase sortRooms getVisibleRooms feature_spaces
     getUserIdForRoomId).
Local Abbreviation matches := (ForwardList.matches toLowerCase).
Local Abbreviation is_dm := (ForwardList.is_dm getUserIdForRoomId).

Lemma filter_sublist {A : Type} (f : A → bool) (l : list A) :
  List.filter f l `sublist_of` l.
Proof.
  induction l as [|x l IH]; cbn; [done|].
  destruct (f x); by constructor.
Qed.

Lemma filter_split {A : Type} (f g : A → bool) (l : list A) :
  List.filter (fun x => f x && negb (g x)) l ++ List.filter (fun x => f x && g x) l
    ≡ₚ List.filter f l.
Proof.
  induction l as [|x l IH]; cbn; [done|].
  destruct (f x), (g x); cbn; try done.
  - rewrite <- Permutation_middle. by constructor.
  - by constructor.
Qed.

Lemma filter_none {A : Type} (f : A → bool) (l : list A) :
  (∀ x, x ∈ l → f x = false) → List.filter f l = [].
Proof.
  induction l as [|x l IH]; intros Hall; cbn; [done|].
  rewrite (Hall x) by constructor. apply IH. intros y Hy. apply Hall. by constructor.
Qed.

Lemma foldl_sort_in (lcQuery : string) (l a b : list ForwardList.Room) :
  foldl (ForwardList.sort_in toLowerCase getUserIdForRoomId lcQuery) (a, b) l =
    (a ++ List.filter
            (fun room => ForwardList.includes (toLowerCase (ForwardList.name room)) lcQuery
                         && negb (is_dm room)) l,
     b ++ List.filter
            (fun room => ForwardList.includes (toLowerCase (ForwardList.name room)) lcQuery
                         && is_dm room) l).
Proof.
  unfold ForwardList.is_dm.
  revert a b. induction l as [|room l IH]; intros a b; cbn [foldl List.filter].
  - by rewrite !app_nil_r.
  - unfold ForwardList.sort_in at 2.
    destruct (ForwardList.includes _ lcQuery); cbn [andb negb fst snd]; [|apply IH].
    destruct (ForwardList.truthy_string _); cbn [andb negb fst snd];
      rewrite IH; by rewrite <- ?app_assoc.
Qed.

Lemma rooms_dms_filters (query : string) :
  (rooms_dms query).1 =
    List.filter (fun room => matches query room && negb (is_dm room)) visibleRooms ∧
  (rooms_dms query).2 =
    List.filter (fun room => matches query room && is_dm room) visibleRooms ∧
  (rooms_dms query).1 `sublist_of` visibleRooms ∧
  (rooms_dms query).2 `sublist_of` visibleRooms ∧
  (rooms_dms query).1 ++ (rooms_dms query).2 ≡ₚ List.filter (matches query) visibleRooms ∧
  (∀ room, room ∈ (rooms_dms query).1 → room ∈ (rooms_dms query).2 → False).
Proof.
  unfold ForwardList.rooms_dms. rewrite foldl_sort_in. cbn [fst snd app].
  split; [done|]. split; [done|].
  split; [apply filter_sublist|]. split; [apply filter_sublist|].
  split; [apply (filter_split (matches query) is_dm)|].
  intros room [_ H1]%list_elem_of_In%filter_In [_ H2]%list_elem_of_In%filter_In.
  destruct (is_dm room), (ForwardList.includes _ _); cbn in *; congruence.
Qed.

(** X6. The [reduce] over the visible rooms sorts every room whose lowercased
    name includes the lowercased query into exactly one of the two lists, the
    direct messages into the second, and keeps the order of the visible rooms
    in both: each list is the visible rooms filtered, and together they are
    the matching visible rooms. *)
Theorem rooms_dms_partition (query : string) :
  (rooms_dms query).1 =
    List.filter (fun room => matches query room && negb (is_dm room)) visibleRooms ∧
  (rooms_dms query).2 =
    List.filter (fun room => matches query room && is_dm room) visibleRooms ∧
  (rooms_dms query).1 `sublist_of` visibleRooms ∧
  (rooms_dms query).2 `sublist_of` visibleRooms ∧
  (rooms_dms query).1 ++ (rooms_dms query).2 ≡ₚ List.filter (matches query) visibleRooms ∧
  (∀ room, room ∈ (rooms_dms query).1 → room ∈ (rooms_dms query).2 → False).
Proof. apply rooms_dms_filters. Qed.

Lemma children_unfold (query : string) (event : ForwardList.MatrixEvent) :
  children query event =
    [ if (0 <? length (rooms_dms query).1)%nat
      then Some (ForwardList.ForwardList_section "Rooms"
                   (ForwardList.entry event <$> (rooms_dms query).1)) else None;
      if (0 <? length (rooms_dms query).2)%nat
      then Some (ForwardList.ForwardList_section "Direct Messages"
                   (ForwardList.entry event <$> (rooms_dms query).2)) else None;
      if (length (rooms_dms query).1 + length (rooms_dms query).2 <? 1)%nat
      then Some ForwardList.ForwardList_noResults else None ].
Proof. unfold ForwardList.children. by destruct (rooms_dms query). Qed.

Lemma entries_of_children (query : string) (event : ForwardList.MatrixEvent) :
  ForwardList.entries_of (children query event) =
    ForwardList.entry event <$> ((rooms_dms query).1 ++ (rooms_dms query).2).
Proof.
  rewrite children_unfold, fmap_app.
  destruct (rooms_dms query) as [[|r rooms] [|d dms]]; cbn; by rewrite ?app_nil_r.
Qed.

Lemma nothing_listed (query : string) :
  (rooms_dms query).1 ++ (rooms_dms query).2 = [] ↔
  ∀ room, room ∈ visibleRooms → matches query room = false.
Proof.
  destruct (rooms_dms_filters query) as (_ & _ & _ & _ & Hperm & _).
  split.
  - intros Hnil room Hin. rewrite Hnil in Hperm.
    apply Permutation_nil_l in Hperm.
    destruct (matches query room) eqn:Hm; [|done].
    assert (room ∈ List.filter (matches query) visibleRooms) as Hx
      by (apply list_elem_of_In, filter_In; by rewrite <- list_elem_of_In).
    rewrite <- Hperm in Hx. by apply elem_of_nil in Hx.
  - intros Hall. apply Permutation_nil_r. rewrite Hperm.
    by rewrite filter_none.
Qed.

Lemma no_results_iff (query : string) (event : ForwardList.MatrixEvent) :
  Some ForwardList.ForwardList_noResults ∈ children query event ↔
  ∀ room, room ∈ visibleRooms → matches query room = false.
Proof.
  rewrite <- nothing_listed, children_unfold.
  destruct (rooms_dms query) as [[|r rooms] [|d dms]]; cbn;
    rewrite ?elem_of_cons, ?elem_of_nil; intuition (discriminate || congruence).
Qed.

(** X7. The scroll area is never empty: "No results" is shown exactly when no
    visible room matches the query, and then no section is; a section is
    shown exactly when its list has a room. *)
Theorem children_no_results (query : string) (event : ForwardList.MatrixEvent) :
  (Some ForwardList.ForwardList_noResults ∈ children query event ↔
     ∀ room, room ∈ visibleRooms → matches query room = false) ∧
  (Some ForwardList.ForwardList_noResults ∈ children query event ↔
     ForwardList.entries_of (children query event) = []) ∧
  (∃ child, Some child ∈ children query event) ∧
  (Some (ForwardList.ForwardList_section "Rooms"
           (ForwardList.entry event <$> (rooms_dms query).1)) ∈ children query event ↔
     (rooms_dms query).1 ≠ []) ∧
  (Some (ForwardList.ForwardList_section "Direct Messages"
           (ForwardList.entry event <$> (rooms_dms query).2)) ∈ children query event ↔
     (rooms_dms query).2 ≠ []).
Proof.
  pose proof (nothing_listed query) as Hnone.
  rewrite entries_of_children. rewrite <- Hnone. rewrite children_unfold.
  destruct (rooms_dms query) as [[|r rooms] [|d dms]]; cbn;
    rewrite ?elem_of_cons, ?elem_of_nil; split_and!;
    try (eexists; rewrite ?elem_of_cons; eauto; fail);
    intuition (discriminate || congruence).
Qed.

Lemma prefix_spec (s1 s2 : string) :
  String.prefix s1 s2 = true ↔ ∃ post, s2 = s1 +:+ post.
Proof.
  revert s2. induction s1 as [|c s1 IH]; intros [|c' s2]; cbn.
  - split; [by exists ""|done].
  - split; [by eexists|done].
  - split; [done|by intros [? ?]].
  - destruct (Ascii.ascii_dec c c') as [->|Hc].
    + rewrite IH. split; intros [post Hpost]; exists post; [by rewrite Hpost|by injection Hpost].
    + split; [done|]. intros [post [= ? _]]. done.
Qed.

Lemma includes_spec (s searchString : string) :
  ForwardList.includes s searchString = true ↔
  ∃ pre post, s = pre +:+ searchString +:+ post.
Proof.
  induction s as [|c s IH]; cbn [ForwardList.includes].
  - rewrite orb_false_r, prefix_spec. split.
    + intros [post ->]. by exists "", post.
    + intros ([|? pre] & post & Hs); [by exists post|done].
  - rewrite orb_true_iff, prefix_spec, IH. split.
    + intros [[post ->]|(pre & post & ->)].
      * by exists "", post.
      * by exists (String c pre), post.
    + intros ([|c' pre] & post & Hs).
      * left. by exists post.
      * right. cbn in Hs. injection Hs as -> ->. by exists pre, post.
Qed.

Lemma includes_empty (s : string) : ForwardList.includes s "" = true.
Proof. by destruct s. Qed.

Lemma filter_all {A : Type} (f : A → bool) (l : list A) :
  (∀ x, f x = true) → List.filter f l = l.
Proof. intros Hall. induction l as [|x l IH]; cbn; [done|]. by rewrite Hall, IH. Qed.

Lemma entries_elem (query : string) (event : ForwardList.MatrixEvent)
    (ep : ForwardList.EntryProps) :
  ep ∈ ForwardList.entries_of (children query event) ↔
  ∃ room, room ∈ visibleRooms ∧ matches query room = true ∧
          ep = ForwardList.entry event room.
Proof.
  rewrite entries_of_children.
  destruct (rooms_dms_filters query) as (_ & _ & _ & _ & Hperm & _).
  rewrite list_elem_of_fmap. setoid_rewrite Hperm.
  setoid_rewrite list_elem_of_In. setoid_rewrite filter_In.
  split.
  - intros (room & -> & Hin & Hm). by exists room.
  - intros (room & Hin & Hm & ->). by exists room.
Qed.

(** X8. The list has an entry for exactly the visible rooms that match the
    query, that is, whose lowercased name has the lowercased query as a
    substring.  Every entry is keyed by its room's id, and its [send] forwards to
    that room's id the type and the content of the event the dialog was
    opened for. *)
Theorem entries_exactly_matching (query : string) (event : ForwardList.MatrixEvent) :
  (∀ ep, ep ∈ ForwardList.entries_of (children query event) ↔
         ∃ room, room ∈ visibleRooms ∧ matches query room = true ∧
                 ep = ForwardList.entry event room) ∧
  (∀ room, matches query room = true ↔
           ∃ pre post, toLowerCase (ForwardList.name room)
                       = pre +:+ toLowerCase query +:+ post) ∧
  Forall (fun ep =>
            ForwardList.key ep = ForwardList.roomId (ForwardList.room ep) ∧
            ForwardList.target (ForwardList.send ep) = ForwardList.roomId (ForwardList.room ep) ∧
            ForwardList.type (ForwardList.send ep) = ForwardList.getType event ∧
            ForwardList.content (ForwardList.send ep) = ForwardList.getContent event)
    (ForwardList.entries_of (children query event)).
Proof.
  split; [intros ep; apply entries_elem|].
  split; [intros room; apply includes_spec|].
  rewrite entries_of_children. apply Forall_fmap, Forall_forall. by intros room _.
Qed.

(** X9. When the visible rooms have different ids, the entries of the list
    have different keys. *)
Theorem entry_keys_distinct (query : string) (event : ForwardList.MatrixEvent) :
  NoDup (ForwardList.roomId <$> visibleRooms) →
  NoDup (ForwardList.key <$> ForwardList.entries_of (children query event)).
Proof.
  intros Hnodup. rewrite entries_of_children, <- list_fmap_compose.
  destruct (rooms_dms_filters query) as (_ & _ & _ & _ & Hperm & _).
  rewrite Hperm.
  change (ForwardList.key ∘ ForwardList.entry event) with ForwardList.roomId.
  eapply sublist_NoDup; [exact Hnodup|].
  apply fmap_sublist, filter_sublist.
Qed.

(** X10. With the search box empty nothing is hidden: every visible room has
    its entry, and "No results" is shown only when there is no visible room
    at all. *)
Theorem empty_query_lists_all (event : ForwardList.MatrixEvent) :
  toLowerCase "" = "" →
  ForwardList.entries_of (children "" event) ≡ₚ ForwardList.entry event <$> visibleRooms ∧
  (Some ForwardList.ForwardList_noResults ∈ children "" event ↔ visibleRooms = []).
Proof.
  intros Hlc.
  assert (∀ room, matches "" room = true) as Hall.
  { intros room. unfold ForwardList.matches. rewrite Hlc. apply includes_empty. }
  destruct (rooms_dms_filters "") as (_ & _ & _ & _ & Hperm & _).
  rewrite (filter_all _ _ Hall) in Hperm.
  split.
  - by rewrite entries_of_children, Hperm.
  - rewrite no_results_iff.
    split.
    + intros Hnone. destruct visibleRooms as [|room l]; [done|].
      specialize (Hnone room ltac:(constructor)). by rewrite Hall in Hnone.
    + intros -> room Hin. by apply elem_of_nil in Hin.
Qed.

(** X11. When [sortRooms] returns only rooms it was given, every entry is for
    a room of [cli.getVisibleRooms()] that the user has joined and that, with
    the spaces feature on, is not a space. *)
Theorem entries_joined_rooms (query : string) (event : ForwardList.MatrixEvent) :
  (∀ l room, room ∈ sortRooms l → room ∈ l) →
  Forall (fun ep =>
            ForwardList.room ep ∈ getVisibleRooms ∧
            ForwardList.getMyMembership (ForwardList.room ep) = "join" ∧
            (feature_spaces = true → ForwardList.isSpaceRoom (ForwardList.room ep) = false))
    (ForwardList.entries_of (children query event)).
Proof.
  intros Hsort. apply Forall_forall. intros ep Hep.
  apply entries_elem in Hep as (room & Hin & _ & ->). cbn.
  apply Hsort, list_elem_of_In, filter_In in Hin as [Hin Hcrit].
  apply andb_prop in Hcrit as [Hjoin Hspace].
  split; [by apply list_elem_of_In|]. split; [by apply String.eqb_eq|].
  intros ->. by destruct (ForwardList.isSpaceRoom room).
Qed.

End ForwardListFacts.

(** Examples of the dialog for the concrete rooms: the query is matched
    without regard to case, rooms come before direct messages, and rooms that
    are not joined and spaces are left out. *)
Example forward_list_chat :
  let children := ForwardList.children ForwardList.ascii_toLowerCase (fun l => l)
                    ForwardExamples.all_rooms true ForwardExamples.dm_map in
  ForwardList.key <$> ForwardList.entries_of (children "CHAT" ForwardExamples.picture)
    = ["!general:example.org"] ∧
  ForwardList.key <$> ForwardList.entries_of (children "" ForwardExamples.picture)
    = ["!general:example.org"; "!news:example.org"; "!bob:example.org"] ∧
  children "zzz" ForwardExamples.picture = [None; None; Some ForwardList.ForwardList_noResults] ∧
  ForwardList.includes "general chat" "al c" = true ∧
  ForwardList.includes "general chat" "chats" = false.
Proof. repeat split; vm_compute; reflexivity. Qed.

(** At the concrete dialog. *)
Lemma entry_keys_distinct_witness :
  let visible := ForwardList.visibleRooms (fun l => l) ForwardExamples.all_rooms true in
  let children := ForwardList.children ForwardList.ascii_toLowerCase (fun l => l)
                    ForwardExamples.all_rooms true ForwardExamples.dm_map in
  NoDup (ForwardList.roomId <$> visible) ∧
  NoDup (ForwardList.key <$> ForwardList.entries_of (children "o" ForwardExamples.picture)).
Proof.
  cbv zeta.
  assert (Hvisible : NoDup (ForwardList.roomId <$>
            ForwardList.visibleRooms (fun l => l) ForwardExamples.all_rooms true)).
  { apply (bool_decide_unpack _). vm_compute. exact I. }
  split; [exact Hvisible|].
  exact (entry_keys_distinct ForwardList.ascii_toLowerCase (fun l => l)
           ForwardExamples.all_rooms true ForwardExamples.dm_map "o"
           ForwardExamples.picture Hvisible).
Defined.

(** At the concrete dialog, with the lowercase of ASCII. *)
Lemma empty_query_lists_all_witness :
  let children := ForwardList.children ForwardList.ascii_toLowerCase (fun l => l)
                    ForwardExamples.all_rooms true ForwardExamples.dm_map in
  ForwardList.ascii_toLowerCase "" = "" ∧
  ForwardList.entries_of (children "" ForwardExamples.picture)
    ≡ₚ ForwardList.entry ForwardExamples.picture <$>
         ForwardList.visibleRooms (fun l => l) ForwardExamples.all_rooms true.
Proof.
  cbv zeta. split; [reflexivity|].
  exact (proj1 (empty_query_lists_all ForwardList.ascii_toLowerCase (fun l => l)
                  ForwardExamples.all_rooms true ForwardExamples.dm_map
                  ForwardExamples.picture eq_refl)).
Defined.

(** At the concrete dialog, with rooms left in the order given. *)
Lemma entries_joined_rooms_witness :
  let children := ForwardList.children ForwardList.ascii_toLowerCase (fun l => l)
                    ForwardExamples.all_rooms true ForwardExamples.dm_map in
  (∀ (l : list ForwardList.Room) room, room ∈ (fun l => l) l → room ∈ l) ∧
  Forall (fun ep => ForwardList.getMyMembership (ForwardList.room ep) = "join")
    (ForwardList.entries_of (children "a" ForwardExamples.picture)).
Proof.
  cbv zeta.
  assert (Hsort : ∀ (l : list ForwardList.Room) room, room ∈ (fun l => l) l → room ∈ l)
    by (intros l room Hin; exact Hin).
  split; [exact Hsort|].
  eapply Forall_impl;
    [exact (entries_joined_rooms ForwardList.ascii_toLowerCase (fun l => l)
              ForwardExamples.all_rooms true ForwardExamples.dm_map "a"
              ForwardExamples.picture Hsort)|].
  intros ep (_ & Hjoin & _). exact Hjoin.
Defined.

(** * Further properties of the entry *)

Section EntryMore.
Import ForwardDialog.

Lemma step_settled (i : Instance) (x : Input) :
  sendState i ≠ CanSend → awaiting i = 0%nat → step i x = i.
Proof.
  destruct i as [s a n]. cbn. intros Hs ->.
  destruct x as [[|]|ok]; cbn; [|done|done].
  destruct s; cbn; congruence.
Qed.

Lemma step_unsent (i : Instance) (x : Input) :
  sendState i = CanSend → awaiting i = 0%nat → x ≠ Click true → step i x = i.
Proof.
  destruct i as [s a n]. cbn. intros -> -> Hx.
  destruct x as [[|]|ok]; cbn; congruence.
Qed.

Lemma steps_sends (xs : list Input) (i : Instance) :
  entry_inv i →
  (sends (steps i xs) = 1%nat ↔ sends i = 1%nat ∨ Click true ∈ xs).
Proof.
  revert i. induction xs as [|x xs IH]; intros i Hi.
  - cbn. rewrite elem_of_nil. tauto.
  - cbn [steps foldl]. fold (steps (step i x) xs).
    rewrite (IH _ (step_keeps_inv i x Hi)), elem_of_cons.
    destruct Hi as [(Hs & Hn & Ha)|[(Hs & Hn & Ha)|(Hs & Hn & Ha)]].
    + assert (x = Click true ∨ x ≠ Click true) as [->|Hx]
        by (destruct x as [[|]|?]; (by left) || (by right)).
      * destruct i as [s a n]. cbn in *. subst. cbn. tauto.
      * rewrite (step_unsent i x Hs Ha Hx). intuition congruence.
    + assert (sends (step i x) = 1%nat) as ->; [|tauto].
      destruct i as [s a n]. cbn in *. subst.
      by destruct x as [[|]|[|]].
    + rewrite (step_settled i x); [tauto| |done].
      destruct Hs as [-> | ->]; done.
Qed.

End EntryMore.

(** X12. [send] is invoked exactly when the button is clicked at a time the
    room allows sending: a mounted entry has sent once when its inputs
    contain such a click, and otherwise it is still as it was mounted,
    whatever else was clicked or settled. *)
Theorem Entry_sends_iff_clicked (xs : list ForwardDialog.Input) :
  let i := ForwardDialog.steps ForwardDialog.mounted xs in
  (ForwardDialog.sends i = 1%nat ↔ ForwardDialog.Click true ∈ xs) ∧
  (ForwardDialog.Click true ∉ xs → i = ForwardDialog.mounted).
Proof.
  intros i. subst i. split.
  - rewrite steps_sends by (by left). cbn. intuition congruence.
  - induction xs as [|x xs IH] using rev_ind; [done|].
    rewrite elem_of_app, list_elem_of_singleton. intros Hno.
    unfold ForwardDialog.steps in *. rewrite foldl_app. cbn.
    rewrite IH by tauto.
    apply step_unsent; [done|done|]. intros ->. tauto.
Qed.

(** X13. A forward that has been sent or has failed stays that way: from then
    on no click and no settlement changes the entry, so a failed forward
    cannot be tried again from the same entry. *)
Theorem Entry_settled_is_final (xs ys : list ForwardDialog.Input) :
  let i := ForwardDialog.steps ForwardDialog.mounted xs in
  ForwardDialog.sendState i = ForwardDialog.Sent ∨
  ForwardDialog.sendState i = ForwardDialog.Failed →
  ForwardDialog.steps i ys = i.
Proof.
  intros i Hdone.
  assert (entry_inv i) as Hi by (apply steps_keep_inv; by left).
  assert (ForwardDialog.sendState i ≠ ForwardDialog.CanSend ∧
          ForwardDialog.awaiting i = 0%nat) as [Hs Ha].
  { destruct Hi as [(Hs & _)|[(Hs & _)|(_ & _ & Ha)]];
      destruct Hdone; split; congruence. }
  clearbody i. induction ys as [|y ys IH]; [done|].
  cbn. by rewrite step_settled.
Qed.

(** After a forward that failed. *)
Lemma Entry_settled_is_final_witness :
  let i := ForwardDialog.steps ForwardDialog.mounted
             [ForwardDialog.Click true; ForwardDialog.SendSettled false] in
  (ForwardDialog.sendState i = ForwardDialog.Sent ∨
   ForwardDialog.sendState i = ForwardDialog.Failed) ∧
  ForwardDialog.steps i [ForwardDialog.Click true; ForwardDialog.Click true] = i.
Proof.
  cbv zeta. split; [right; reflexivity|].
  exact (Entry_settled_is_final
           [ForwardDialog.Click true; ForwardDialog.SendSettled false]
           [ForwardDialog.Click true; ForwardDialog.Click true]
           (or_intror eq_refl)).
Defined.
